(** * users-to-excel: the cache loader and the export transformer of main.py

    A shallow embedding of [fetch_user_data_to_json], of
    [write_user_data_to_excel] and of the [__main__] block, over an explicit
    world (file system, issued network requests, log records), and the
    properties of the specification proved about it. *)

From Stdlib Require Import ZArith Lia Ascii String Sorted Permutation.
From stdpp Require Import base option list gmap.

Local Open Scope Z_scope.

(** ** Python strings *)

(** A Python [str] is a sequence of Unicode code points. *)
Abbreviation pystr := (list N).

(** The code points of a literal whose characters are all below 256. *)
Definition str (s : string) : pystr :=
  List.map N_of_ascii (list_ascii_of_string s).
Arguments str : simpl never.

(** [str.__lt__] and friends: lexicographic comparison by code point, a
    proper prefix being smaller. *)
Fixpoint str_compare (a b : pystr) : comparison :=
  match a, b with
  | [], [] => Eq
  | [], _ :: _ => Lt
  | _ :: _, [] => Gt
  | x :: a', y :: b' =>
      match N.compare x y with
      | Eq => str_compare a' b'
      | c => c
      end
  end.

Definition str_lt (a b : pystr) : bool :=
  match str_compare a b with Lt => true | _ => false end.

(** [str.isspace] for one code point: the white-space table of CPython's
    unicode database. *)
Definition is_space (c : N) : bool :=
  ((9 <=? c) && (c <=? 13) || (28 <=? c) && (c <=? 32) ||
   (c =? 133) || (c =? 160) || (c =? 5760) ||
   (8192 <=? c) && (c <=? 8202) || (c =? 8232) || (c =? 8233) ||
   (c =? 8239) || (c =? 8287) || (c =? 12288))%N.

(** [flush cur] closes the token collected so far ([cur], in reverse). *)
Definition flush (cur : pystr) (toks : list pystr) : list pystr :=
  match cur with
  | [] => toks
  | _ :: _ => rev cur :: toks
  end.

(** [s.split()] with no argument: the maximal runs of non-white-space. *)
Fixpoint split_from (cur : pystr) (s : pystr) : list pystr :=
  match s with
  | [] => flush cur []
  | c :: s' =>
      if is_space c then flush cur (split_from [] s')
      else split_from (c :: cur) s'
  end.

Definition split (s : pystr) : list pystr := split_from [] s.

(** ** Python values as [json.load] builds them *)

(** A [float] is carried by the text [json.dump] writes for it; a [dict]
    keeps insertion order. *)
#[warnings="-register-all"]
Inductive json : Type :=
| JNull
| JBool (b : bool)
| JInt (z : Z)
| JFloat (repr : pystr)
| JStr (s : pystr)
| JArr (items : list json)
| JObj (members : list (pystr * json)).

(** ** Exceptions and results *)

Inductive exn : Type :=
| FileNotFoundError
| IsADirectoryError
| NotADirectoryError
| UnicodeDecodeError
| JSONDecodeError
| TypeError
| KeyError (k : pystr)
| AttributeError
| IndexError
| ValueError
| IllegalCharacterError
| RecursionError.

Inductive result (A : Type) : Type :=
| Ok (a : A)
| Raise (e : exn).
Arguments Ok {A} a.
Arguments Raise {A} e.

Definition rbind {A B} (r : result A) (k : A -> result B) : result B :=
  match r with
  | Ok a => k a
  | Raise e => Raise e
  end.

Declare Scope result_scope.
Delimit Scope result_scope with result.
Notation "x <- r ;; k" := (rbind r (fun x => k))
  (at level 100, r at next level, right associativity) : result_scope.

(** Evaluates [f] on every element from left to right; the first exception
    ends the traversal. *)
Fixpoint rmap {A B} (f : A -> result B) (l : list A) : result (list B) :=
  match l with
  | [] => Ok []
  | a :: l' =>
      (b <- f a ;; bs <- rmap f l' ;; Ok (b :: bs))%result
  end.

(** ** Subscripts, attributes and iteration *)

Fixpoint dict_get (k : pystr) (m : list (pystr * json)) : option json :=
  match m with
  | [] => None
  | (k', v) :: m' => if decide (k' = k) then Some v else dict_get k m'
  end.

(** [v[k]] for a [str] key [k]. *)
Definition getitem (v : json) (k : pystr) : result json :=
  match v with
  | JObj m =>
      match dict_get k m with
      | Some x => Ok x
      | None => Raise (KeyError k)
      end
  | _ => Raise TypeError
  end.

(** [v.split()]: only a [str] has the method. *)
Definition split_method (v : json) : result (list pystr) :=
  match v with
  | JStr s => Ok (split s)
  | _ => Raise AttributeError
  end.

(** [l[0]] and [l[-1]] on a list. *)
Definition first_item {A} (l : list A) : result A :=
  match l with
  | [] => Raise IndexError
  | x :: _ => Ok x
  end.

Definition last_item {A} (l : list A) : result A :=
  match last l with
  | None => Raise IndexError
  | Some x => Ok x
  end.

(** [iter(v)], as [sorted] consumes its first argument. *)
Definition iterate (v : json) : result (list json) :=
  match v with
  | JArr l => Ok l
  | JObj m => Ok (List.map (fun kv => JStr (fst kv)) m)
  | JStr s => Ok (List.map (fun c => JStr [c]) s)
  | _ => Raise TypeError
  end.

(** [user["name"].split()[-1]] and [user["name"].split()[0]]. *)
Definition last_name (user : json) : result pystr :=
  (n <- getitem user (str "name") ;; toks <- split_method n ;; last_item toks)%result.

Definition first_name (user : json) : result pystr :=
  (n <- getitem user (str "name") ;; toks <- split_method n ;; first_item toks)%result.

(** The [key=] function of the sort: a pair, built left to right. *)
Definition sort_key (user : json) : result (pystr * pystr) :=
  (l <- last_name user ;; f <- first_name user ;; Ok (l, f))%result.

(** Tuple comparison: on the first components unless they are equal. *)
Definition key_compare (a b : pystr * pystr) : comparison :=
  match str_compare (fst a) (fst b) with
  | Eq => str_compare (snd a) (snd b)
  | c => c
  end.

Definition key_lt (a b : pystr * pystr) : bool :=
  match key_compare a b with Lt => true | _ => false end.

(** ** [sorted]: a stable sort that only asks [<] of the keys *)

Section Sorting.
Context {K V : Type} (lt : K -> K -> bool).

(** [x] goes in front of the first element that is not smaller than it, so
    it stays ahead of the equal-keyed elements that followed it. *)
Fixpoint insert_keyed (x : K * V) (l : list (K * V)) : list (K * V) :=
  match l with
  | [] => [x]
  | y :: l' =>
      if lt (fst y) (fst x) then y :: insert_keyed x l' else x :: y :: l'
  end.

Fixpoint sort_keyed (l : list (K * V)) : list (K * V) :=
  match l with
  | [] => []
  | x :: l' => insert_keyed x (sort_keyed l')
  end.

(** [p] may stand before [q]: the key of [q] is not the smaller one. *)
Definition keyed_le (p q : K * V) : Prop := lt (fst q) (fst p) = false.
End Sorting.

(** [sorted(users, key=...)]: the iterable is drained into a list, every key
    is computed once, in order, and the list is sorted on the keys. *)
Definition decorate (items : list json) : result (list ((pystr * pystr) * json)) :=
  (keys <- rmap sort_key items ;; Ok (combine keys items))%result.

Definition sorted (users : json) : result (list json) :=
  (items <- iterate users ;;
   pairs <- decorate items ;;
   Ok (List.map snd (sort_keyed key_lt pairs)))%result.

(** ** Export rows and the worksheet *)

Abbreviation row := (list json).
Abbreviation sheet := (list row).

Definition header : row :=
  [ JStr (str "last name"); JStr (str "first name"); JStr (str "email");
    JStr (str "street"); JStr (str "city"); JStr (str "zipcode");
    JStr (str "phone"); JStr (str "website") ].

(** The list literal of the loop body, evaluated left to right. *)
Definition export_row (user : json) : result row :=
  (l <- last_name user ;;
   f <- first_name user ;;
   email <- getitem user (str "email") ;;
   a1 <- getitem user (str "address") ;;
   street <- getitem a1 (str "street") ;;
   a2 <- getitem user (str "address") ;;
   city <- getitem a2 (str "city") ;;
   a3 <- getitem user (str "address") ;;
   zipcode <- getitem a3 (str "zipcode") ;;
   phone <- getitem user (str "phone") ;;
   website <- getitem user (str "website") ;;
   Ok [JStr l; JStr f; email; street; city; zipcode; phone; website])%result.

(** What a worksheet cell does with a value it is given: a [str] is cut to
    its first 32767 characters and refused when what is left holds a
    control character a spreadsheet cannot hold; a list or a dict is no cell
    value; [None], a [bool] or a number is kept as it is. *)
Definition max_cell_length : nat := N.to_nat 32767.

Definition illegal_character (c : N) : bool :=
  ((c <=? 8) || (c =? 11) || (c =? 12) || (14 <=? c) && (c <=? 31))%N.

Definition check_string (s : pystr) : result pystr :=
  let cut := take max_cell_length s in
  if existsb illegal_character cut then Raise IllegalCharacterError else Ok cut.

Definition bind_value (v : json) : result json :=
  match v with
  | JStr s => (cut <- check_string s ;; Ok (JStr cut))%result
  | JArr _ | JObj _ => Raise ValueError
  | _ => Ok v
  end.

(** [ws.append(values)]: one cell per value, from left to right. *)
Definition ws_append (ws : sheet) (values : row) : result sheet :=
  (cells <- rmap bind_value values ;; Ok (ws ++ [cells]))%result.

(** The [for user in sorted_users] loop. *)
Fixpoint append_rows (ws : sheet) (users : list json) : result sheet :=
  match users with
  | [] => Ok ws
  | user :: rest =>
      (values <- export_row user ;;
       ws' <- ws_append ws values ;;
       append_rows ws' rest)%result
  end.

(** ** Dates and [strftime] *)

Record datetime : Type := Datetime {
  year : Z; month : Z; day : Z;
  hour : Z; minute : Z; second : Z; microsecond : Z
}.

(** The [w] low decimal digits of [n], most significant first: [n] padded
    with zeros to width [w] when [0 <= n < 10 ^ w]. *)
Definition digit (d : Z) : N := Z.to_N (48 + d).

Fixpoint digits (w : nat) (n : Z) : pystr :=
  match w with
  | O => []
  | S w' => digit ((n / 10 ^ Z.of_nat w') mod 10) :: digits w' n
  end.

(** The number of decimal digits of [n], counted in at most [fuel]
    divisions, and [n] in decimal without padding. *)
Fixpoint width_from (fuel : nat) (n : Z) : nat :=
  match fuel with
  | O => 1
  | S fuel => if n <? 10 then 1%nat else S (width_from fuel (n / 10))
  end.

Definition decimal (n : Z) : pystr :=
  digits (width_from (Z.to_nat (Z.log2 n)) n) n.

(** [now.strftime("%Y%m%d%H%M%S")]: the year as the C library of Linux
    prints it for CPython before 3.13, without padding, and two digits for
    each of the other fields. *)
Definition strftime_YmdHMS (d : datetime) : pystr :=
  decimal (year d) ++ digits 2 (month d) ++ digits 2 (day d) ++
  digits 2 (hour d) ++ digits 2 (minute d) ++ digits 2 (second d).

Definition export_name (now : datetime) : pystr :=
  str "employees_" ++ strftime_YmdHMS now ++ str ".xlsx".

(** The proleptic Gregorian calendar of the [datetime] module. *)
Definition is_leap (y : Z) : bool :=
  (y mod 4 =? 0) && (negb (y mod 100 =? 0) || (y mod 400 =? 0)).

Definition days_in_month (y m : Z) : Z :=
  match m with
  | 2 => if is_leap y then 29 else 28
  | 4 | 6 | 9 | 11 => 30
  | _ => 31
  end.

Definition days_before_year (y : Z) : Z :=
  let y1 := y - 1 in y1 * 365 + y1 / 4 - y1 / 100 + y1 / 400.

Definition days_before_month (y m : Z) : Z :=
  match m with
  | 1 => 0 | 2 => 31 | 3 => 59 | 4 => 90 | 5 => 120 | 6 => 151
  | 7 => 181 | 8 => 212 | 9 => 243 | 10 => 273 | 11 => 304 | _ => 334
  end + (if (2 <? m) && is_leap y then 1 else 0).

Definition ymd2ord (y m d : Z) : Z :=
  days_before_year y + days_before_month y m + d.

(** The invariant every [datetime] object satisfies. *)
Definition valid_datetime (d : datetime) : Prop :=
  1 <= year d <= 9999 /\ 1 <= month d <= 12 /\
  1 <= day d <= days_in_month (year d) (month d) /\
  0 <= hour d < 24 /\ 0 <= minute d < 60 /\ 0 <= second d < 60 /\
  0 <= microsecond d < 1000000.

(** Microseconds since the start of day 0 of the calendar: [d2 - d1] is
    the [timedelta] of [to_microseconds d2 - to_microseconds d1]. *)
Definition to_seconds (d : datetime) : Z :=
  ((ymd2ord (year d) (month d) (day d) * 24 + hour d) * 60 + minute d) * 60
  + second d.

Definition to_microseconds (d : datetime) : Z :=
  to_seconds d * 1000000 + microsecond d.

(** ** The world: file system, network requests, log *)

Abbreviation path := (list pystr).

Inductive node : Type :=
| Dir
| TextFile (content : pystr)
| XlsxFile (rows : sheet).

(** What [requests.get] followed by [raise_for_status] can raise. *)
Inductive request_exception : Type :=
| TransportError (cause : pystr)
| HTTPError (status : Z).

(** What the network would answer, were it asked. *)
Inductive net_reply : Type :=
| NoReply (cause : pystr)
| Reply (status : Z) (body : pystr).

(** The four log messages of the program, with the values they
    interpolate. *)
Inductive message : Type :=
| MsgSkipped
| MsgFetchFailed (e : request_exception)
| MsgCreated (p : path)
| MsgSaved (p : path).

Record world : Type := World {
  fs : gmap path node;
  requests : list (pystr * Z);
  logs : list (Z * message)
}.

Definition set_fs (f : gmap path node -> gmap path node) (w : world) : world :=
  World (f (fs w)) (requests w) (logs w).

(** A computation on the world that returns or raises; the world it
    leaves is kept in both cases. *)
Definition M (A : Type) : Type := world -> result A * world.

Definition ret {A} (a : A) : M A := fun w => (Ok a, w).
Definition raise {A} (e : exn) : M A := fun w => (Raise e, w).
Definition lift {A} (r : result A) : M A := fun w => (r, w).

Definition bind {A B} (c : M A) (k : A -> M B) : M B :=
  fun w =>
    match c w with
    | (Ok a, w') => k a w'
    | (Raise e, w') => (Raise e, w')
    end.

Declare Scope io_scope.
Delimit Scope io_scope with io.
Notation "x <- c ;; k" := (bind c (fun x => k))
  (at level 100, c at next level, right associativity) : io_scope.
Notation "c ;; k" := (bind c (fun _ => k))
  (at level 100, right associativity) : io_scope.

(** [log(level=..., msg=...)]. *)
Definition log (level : Z) (msg : message) : M unit :=
  fun w => (Ok tt, World (fs w) (requests w) (logs w ++ [(level, msg)])).

(** [Path.exists]. *)
Definition path_exists (p : path) : M bool :=
  fun w => (Ok (bool_decide (is_Some (fs w !! p))), w).

(** ** What the program takes from its libraries and its installation *)

Class Platform : Type := {
  (** [json.load] and [response.json()]: the value, or the exception the
      decoder raises ([JSONDecodeError] for a text that is not JSON,
      [ValueError] for an integer of too many digits, [RecursionError]) *)
  json_loads : pystr -> result json;
  (** the text [json.dump] writes for a value, with the default options *)
  json_dumps : json -> pystr;
  (** [Path(__file__).parent] *)
  script_dir : path
}.

Definition parent (p : path) : path := removelast p.

(** The folders that are there whatever the file system records: the
    working directory (the empty path) and the folder of the script with the
    folders above it. *)
Definition ambient `{Platform} (p : path) : bool :=
  bool_decide (p `prefix_of` script_dir).

Definition node_at `{Platform} (f : gmap path node) (p : path) : option node :=
  if ambient p then Some Dir else f !! p.

(** Path resolution, component by component below the folder [above]: the
    first component that names nothing, or names something that is no
    folder, decides. *)
Fixpoint resolve `{Platform} (f : gmap path node) (above rest : path)
  : option exn :=
  match rest with
  | [] => None
  | c :: rest' =>
      match node_at f (above ++ [c]) with
      | Some Dir => resolve f (above ++ [c]) rest'
      | Some _ => Some NotADirectoryError
      | None => Some FileNotFoundError
      end
  end.

(** Why a path that names nothing cannot be opened: a folder on the way to
    it is absent, or is not a folder. *)
Definition parent_error `{Platform} (f : gmap path node) (p : path)
  : option exn :=
  resolve f [] (parent p).

(** [open(p, "r", encoding="utf-8")] and reading the whole file. *)
Definition read_text `{Platform} (p : path) : M pystr :=
  fun w =>
    match fs w !! p with
    | Some (TextFile s) => (Ok s, w)
    | Some Dir => (Raise IsADirectoryError, w)
    | Some (XlsxFile _) => (Raise UnicodeDecodeError, w)
    | None =>
        match parent_error (fs w) p with
        | Some e => (Raise e, w)
        | None => (Raise FileNotFoundError, w)
        end
    end.

(** Creates or replaces the file at [p], as [open(p, "w")] and
    [Workbook.save] do before they write. *)
Definition create `{Platform} (p : path) (n : node) : M unit :=
  fun w =>
    match fs w !! p with
    | Some Dir => (Raise IsADirectoryError, w)
    | Some _ => (Ok tt, set_fs <[p := n]> w)
    | None =>
        match parent_error (fs w) p with
        | Some e => (Raise e, w)
        | None => (Ok tt, set_fs <[p := n]> w)
        end
    end.

(** [open(p, "w", encoding="utf-8")]: the file is there, empty, as soon as
    it is opened; [write_text] is what an open file receives. *)
Definition open_w `{Platform} (p : path) : M unit := create p (TextFile []).

Definition write_text (p : path) (s : pystr) : M unit :=
  fun w => (Ok tt, set_fs <[p := TextFile s]> w).

(** [requests.get(url, timeout=t)]: the request is issued and answered. *)
Definition requests_get (url : pystr) (timeout : Z) (reply : net_reply)
  : M (request_exception + Z * pystr) :=
  fun w =>
    (Ok match reply with
        | NoReply cause => inl (TransportError cause)
        | Reply status body => inr (status, body)
        end,
     World (fs w) (requests w ++ [(url, timeout)]) (logs w)).

(** [response.raise_for_status()]: client and server errors raise. *)
Definition raise_for_status (status : Z) : option request_exception :=
  if (400 <=? status) && (status <? 600) then Some (HTTPError status) else None.

Section Program.
Context `{Platform}.

Definition DATA_FOLDER : path := script_dir ++ [str "data"].
Definition USERS_JSON_FILE : path := DATA_FOLDER ++ [str "users.json"].
Definition API_URL : pystr := str "https://jsonplaceholder.typicode.com/users".

(** [json.load(f)] on the text of the file. *)
Definition json_load (text : pystr) : result json := json_loads text.

(** The body of the [try] block: the exception it catches, or the body
    of the response. *)
Definition try_fetch (reply : net_reply) : M (request_exception + pystr) :=
  (r <- requests_get API_URL 60 reply ;;
   ret match r with
       | inl e => inl e
       | inr (status, body) =>
           match raise_for_status status with
           | Some e => inl e
           | None => inr body
           end
       end)%io.

Definition fetch_user_data_to_json (reply : net_reply) : M unit :=
  (present <- path_exists USERS_JSON_FILE ;;
   if (present : bool) then log 1 MsgSkipped
   else
     r <- try_fetch reply ;;
     match r with
     | inl e => log 2 (MsgFetchFailed e)
     | inr body =>
         open_w USERS_JSON_FILE ;;
         v <- lift (json_load body) ;;
         write_text USERS_JSON_FILE (json_dumps v) ;;
         log 1 (MsgCreated USERS_JSON_FILE)
     end)%io.

Definition write_user_data_to_excel (now : datetime) (save_folder : path)
  : M unit :=
  (text <- read_text USERS_JSON_FILE ;;
   users <- lift (json_load text) ;;
   ws <- lift (ws_append [] header) ;;
   sorted_users <- lift (sorted users) ;;
   ws <- lift (append_rows ws sorted_users) ;;
   let timestamp := strftime_YmdHMS now in
   let save_path := save_folder ++ [str "employees_" ++ timestamp ++ str ".xlsx"] in
   create save_path (XlsxFile ws) ;;
   log 1 (MsgSaved save_path))%io.

(** The [__main__] block. *)
Definition main (reply : net_reply) (now : datetime) : M unit :=
  (fetch_user_data_to_json reply ;;
   write_user_data_to_excel now [str "files"])%io.
End Program.

(** ** A reference platform

    [json.dump] with its default options ([ensure_ascii], separators
    [", "] and [": "]), a decoder for the JSON texts whose numbers are
    integers or the constants [NaN], [Infinity] and [-Infinity] (a number
    with a fraction or an exponent is outside its reach: it reports such a
    text as undecodable), and the program installed in [/srv/app]. *)

Module Reference.

Definition uint_digits : Decimal.uint -> pystr :=
  fix go (u : Decimal.uint) : pystr :=
    match u with
    | Decimal.Nil => []
    | Decimal.D0 u => 48%N :: go u | Decimal.D1 u => 49%N :: go u
    | Decimal.D2 u => 50%N :: go u | Decimal.D3 u => 51%N :: go u
    | Decimal.D4 u => 52%N :: go u | Decimal.D5 u => 53%N :: go u
    | Decimal.D6 u => 54%N :: go u | Decimal.D7 u => 55%N :: go u
    | Decimal.D8 u => 56%N :: go u | Decimal.D9 u => 57%N :: go u
    end.

(** [str(z)] for an [int]. *)
Definition int_repr (z : Z) : pystr :=
  match z with
  | Z0 => [48%N]
  | Zpos p => uint_digits (Pos.to_uint p)
  | Zneg p => 45%N :: uint_digits (Pos.to_uint p)
  end.

Definition hex_digit (d : N) : N :=
  (if d <? 10 then 48 + d else 87 + d)%N.

(** The six characters [\uXXXX] for a code unit. *)
Definition u_escape (c : N) : pystr :=
  [92; 117; hex_digit (c / 4096 mod 16); hex_digit (c / 256 mod 16);
   hex_digit (c / 16 mod 16); hex_digit (c mod 16)]%N.

Definition escape_char (c : N) : pystr :=
  (if c =? 34 then [92; 34]
   else if c =? 92 then [92; 92]
   else if c =? 10 then [92; 110]
   else if c =? 13 then [92; 114]
   else if c =? 9 then [92; 116]
   else if c =? 8 then [92; 98]
   else if c =? 12 then [92; 102]
   else if (32 <=? c) && (c <=? 126) then [c]
   else if c <? 65536 then u_escape c
   else
     let v := c - 65536 in
     u_escape (55296 + v / 1024 mod 1024) ++ u_escape (56320 + v mod 1024))%N.

Definition quote (s : pystr) : pystr :=
  [34%N] ++ concat (List.map escape_char s) ++ [34%N].

Fixpoint join (sep : pystr) (l : list pystr) : pystr :=
  match l with
  | [] => []
  | [x] => x
  | x :: l' => x ++ sep ++ join sep l'
  end.

Fixpoint dumps (v : json) : pystr :=
  match v with
  | JNull => str "null"
  | JBool true => str "true"
  | JBool false => str "false"
  | JInt z => int_repr z
  | JFloat r => r
  | JStr s => quote s
  | JArr l => str "[" ++ join (str ", ") (List.map dumps l) ++ str "]"
  | JObj m =>
      str "{" ++
      join (str ", ")
        (List.map (fun kv => quote (fst kv) ++ str ": " ++ dumps (snd kv)) m)
      ++ str "}"
  end.

(** *** Decoding *)

Definition is_json_ws (c : N) : bool :=
  ((c =? 32) || (c =? 9) || (c =? 10) || (c =? 13))%N.

Fixpoint skip_ws (s : pystr) : pystr :=
  match s with
  | c :: s' => if is_json_ws c then skip_ws s' else s
  | [] => []
  end.

Definition is_digit (c : N) : bool := ((48 <=? c) && (c <=? 57))%N.

(** The digits at the head of [s], as a number, how many they are, and
    what follows. *)
Fixpoint scan_digits (acc : Z) (count : N) (s : pystr) : Z * N * pystr :=
  match s with
  | c :: s' =>
      if is_digit c then scan_digits (10 * acc + (Z.of_N c - 48)) (count + 1) s'
      else (acc, count, s)
  | [] => (acc, count, [])
  end.

(** After the integer part: a fraction or an exponent is a [float], which
    this decoder does not read. *)
Definition no_fraction (s : pystr) : bool :=
  match s with
  | c :: _ => negb ((c =? 46) || (c =? 101) || (c =? 69))%N
  | [] => true
  end.

(** [0] or a digit string without a leading zero; [int] refuses more than
    4300 digits. *)
Definition scan_int (s : pystr) : result (Z * pystr) :=
  match s with
  | c :: s' =>
      if (c =? 48)%N then
        if no_fraction s' then Ok (0, s') else Raise JSONDecodeError
      else if is_digit c then
        let '(z, count, rest) := scan_digits 0 0 s in
        if negb (no_fraction rest) then Raise JSONDecodeError
        else if (4300 <? count)%N then Raise ValueError
        else Ok (z, rest)
      else Raise JSONDecodeError
  | [] => Raise JSONDecodeError
  end.

Definition hex_value (c : N) : option N :=
  (if (48 <=? c) && (c <=? 57) then Some (c - 48)
   else if (97 <=? c) && (c <=? 102) then Some (c - 87)
   else if (65 <=? c) && (c <=? 70) then Some (c - 55)
   else None)%N.

Definition scan_hex4 (s : pystr) : option (N * pystr) :=
  match s with
  | a :: b :: c :: d :: rest =>
      a ← hex_value a; b ← hex_value b; c ← hex_value c; d ← hex_value d;
      Some (((a * 16 + b) * 16 + c) * 16 + d, rest)%N
  | _ => None
  end.

(** The characters of a string up to its closing quote; [acc] holds the
    decoded ones in reverse. A surrogate pair of [\u] escapes is one
    character. *)
Fixpoint scan_string (fuel : nat) (acc : pystr) (s : pystr)
  : option (pystr * pystr) :=
  match fuel with
  | O => None
  | S fuel =>
      match s with
      | [] => None
      | 34%N :: rest => Some (reverse acc, rest)
      | 92%N :: e :: rest =>
          match e with
          | 34%N => scan_string fuel (34%N :: acc) rest
          | 92%N => scan_string fuel (92%N :: acc) rest
          | 47%N => scan_string fuel (47%N :: acc) rest
          | 98%N => scan_string fuel (8%N :: acc) rest
          | 102%N => scan_string fuel (12%N :: acc) rest
          | 110%N => scan_string fuel (10%N :: acc) rest
          | 114%N => scan_string fuel (13%N :: acc) rest
          | 116%N => scan_string fuel (9%N :: acc) rest
          | 117%N =>
              match scan_hex4 rest with
              | None => None
              | Some (hi, rest1) =>
                  match rest1 with
                  | 92%N :: 117%N :: rest2 =>
                      match scan_hex4 rest2 with
                      | Some (lo, rest3) =>
                          if ((55296 <=? hi) && (hi <=? 56319) &&
                              (56320 <=? lo) && (lo <=? 57343))%N
                          then scan_string fuel
                                 ((65536 + (hi - 55296) * 1024 + (lo - 56320))%N :: acc)
                                 rest3
                          else scan_string fuel (hi :: acc) rest1
                      | None => scan_string fuel (hi :: acc) rest1
                      end
                  | _ => scan_string fuel (hi :: acc) rest1
                  end
              end
          | _ => None
          end
      | c :: rest =>
          if (c <? 32)%N then None else scan_string fuel (c :: acc) rest
      end
  end.

Definition scan_quoted (s : pystr) : result (pystr * pystr) :=
  match scan_string (S (length s)) [] s with
  | Some r => Ok r
  | None => Raise JSONDecodeError
  end.

(** A later member with the same name replaces the value of the earlier
    one, in its place. *)
Fixpoint dict_set (k : pystr) (v : json) (m : list (pystr * json))
  : list (pystr * json) :=
  match m with
  | [] => [(k, v)]
  | (k', v') :: m' =>
      if decide (k' = k) then (k, v) :: m' else (k', v') :: dict_set k v m'
  end.

Fixpoint scan_value (fuel : nat) (s : pystr) {struct fuel}
  : result (json * pystr) :=
  match fuel with
  | O => Raise JSONDecodeError
  | S fuel =>
      match s with
      | 34%N :: rest =>
          (x <- scan_quoted rest ;; Ok (JStr (fst x), snd x))%result
      | 91%N :: rest =>
          match skip_ws rest with
          | 93%N :: rest' => Ok (JArr [], rest')
          | rest' => scan_items fuel [] rest'
          end
      | 123%N :: rest =>
          match skip_ws rest with
          | 125%N :: rest' => Ok (JObj [], rest')
          | rest' => scan_members fuel [] rest'
          end
      | 110%N :: 117%N :: 108%N :: 108%N :: rest => Ok (JNull, rest)
      | 116%N :: 114%N :: 117%N :: 101%N :: rest => Ok (JBool true, rest)
      | 102%N :: 97%N :: 108%N :: 115%N :: 101%N :: rest =>
          Ok (JBool false, rest)
      | 78%N :: 97%N :: 78%N :: rest => Ok (JFloat (str "NaN"), rest)
      | 73%N :: 110%N :: 102%N :: 105%N :: 110%N :: 105%N :: 116%N :: 121%N
        :: rest => Ok (JFloat (str "Infinity"), rest)
      | 45%N :: 73%N :: 110%N :: 102%N :: 105%N :: 110%N :: 105%N :: 116%N
        :: 121%N :: rest => Ok (JFloat (str "-Infinity"), rest)
      | 45%N :: rest =>
          (z <- scan_int rest ;; Ok (JInt (- fst z), snd z))%result
      | _ => (z <- scan_int s ;; Ok (JInt (fst z), snd z))%result
      end
  end
with scan_items (fuel : nat) (acc : list json) (s : pystr) {struct fuel}
  : result (json * pystr) :=
  match fuel with
  | O => Raise JSONDecodeError
  | S fuel =>
      (v <- scan_value fuel s ;;
       match skip_ws (snd v) with
       | 44%N :: rest' => scan_items fuel (fst v :: acc) (skip_ws rest')
       | 93%N :: rest' => Ok (JArr (reverse (fst v :: acc)), rest')
       | _ => Raise JSONDecodeError
       end)%result
  end
with scan_members (fuel : nat) (acc : list (pystr * json)) (s : pystr)
  {struct fuel} : result (json * pystr) :=
  match fuel with
  | O => Raise JSONDecodeError
  | S fuel =>
      match s with
      | 34%N :: rest =>
          (k <- scan_quoted rest ;;
           match skip_ws (snd k) with
           | 58%N :: rest2 =>
               v <- scan_value fuel (skip_ws rest2) ;;
               match skip_ws (snd v) with
               | 44%N :: rest4 =>
                   scan_members fuel (dict_set (fst k) (fst v) acc) (skip_ws rest4)
               | 125%N :: rest4 =>
                   Ok (JObj (dict_set (fst k) (fst v) acc), rest4)
               | _ => Raise JSONDecodeError
               end
           | _ => Raise JSONDecodeError
           end)%result
      | _ => Raise JSONDecodeError
      end
  end.

(** One value, white space around it, and nothing else. *)
Definition loads (s : pystr) : result json :=
  (v <- scan_value (2 * length s + 2) (skip_ws s) ;;
   match skip_ws (snd v) with
   | [] => Ok (fst v)
   | _ :: _ => Raise JSONDecodeError
   end)%result.

#[global] Instance platform : Platform := {|
  json_loads := loads;
  json_dumps := dumps;
  script_dir := [str "srv"; str "app"]
|}.

End Reference.

(** ** The vocabulary of the specification *)

#[global] Instance exn_eq_dec : EqDecision exn.
Proof. solve_decision. Defined.

#[global] Instance result_eq_dec {A} `{EqDecision A} : EqDecision (result A).
Proof. solve_decision. Defined.

(** A member of a record, when the value is a record that has it. *)
Definition field (v : json) (k : string) : option json :=
  match v with
  | JObj m => dict_get (str k) m
  | _ => None
  end.

(** The User record of the data model: [name] is a string, and [email],
    [phone], [website] and the three members of the nested [address] are
    present. *)
Definition user_record (u : json) : Prop :=
  exists name address,
    field u "name" = Some (JStr name) /\
    is_Some (field u "email") /\ is_Some (field u "phone") /\
    is_Some (field u "website") /\
    field u "address" = Some address /\
    is_Some (field address "street") /\ is_Some (field address "city") /\
    is_Some (field address "zipcode").

(** The snapshot the transformer expects: a sequence of User records. *)
Definition user_records (v : json) : Prop :=
  exists l, v = JArr l /\ Forall user_record l.


(** The export row of the data model: last name, first name, email,
    street, city, zipcode, phone, website. *)
Definition is_export_row (u : json) (r : row) : Prop :=
  exists name first_token last_token email address street city zipcode phone website,
    field u "name" = Some (JStr name) /\
    head (split name) = Some first_token /\
    last (split name) = Some last_token /\
    field u "email" = Some email /\
    field u "address" = Some address /\
    field address "street" = Some street /\
    field address "city" = Some city /\
    field address "zipcode" = Some zipcode /\
    field u "phone" = Some phone /\
    field u "website" = Some website /\
    r = [JStr last_token; JStr first_token; email; street; city; zipcode;
         phone; website].

(** [a <= b] on keys, as the tuples compare. *)
Definition key_le (a b : pystr * pystr) : Prop := key_lt b a = false.

(** Ascending by (last name token, first name token). *)
Definition ascending (users : list json) : Prop :=
  StronglySorted
    (fun u v => exists ku kv,
       sort_key u = Ok ku /\ sort_key v = Ok kv /\ key_le ku kv)
    users.

(** Records with the same key pair come out in the order they went in. *)
Definition stable (input output : list json) : Prop :=
  forall k : pystr * pystr,
    filter (fun u => sort_key u = Ok k) output
    = filter (fun u => sort_key u = Ok k) input.

(** The exception the [try] block of the cache loader catches, if any: a
    transport failure, or a status that [raise_for_status] rejects. *)
Definition caught (reply : net_reply) : option request_exception :=
  match reply with
  | NoReply cause => Some (TransportError cause)
  | Reply status _ => raise_for_status status
  end.

Definition is_decimal_digit (c : N) : Prop := (48 <= c <= 57)%N.

(** A token as [split] returns them: not empty, free of white space. *)
Definition token (t : pystr) : Prop :=
  t <> [] /\ Forall (fun c => is_space c = false) t.

(** Tokens with one space between them. *)
Fixpoint unwords (toks : list pystr) : pystr :=
  match toks with
  | [] => []
  | [t] => t
  | t :: rest => t ++ 32%N :: unwords rest
  end.

(** The number a string of decimal digits reads as. *)
Definition decimal_value (s : pystr) : Z :=
  fold_left (fun acc c => 10 * acc + (Z.of_N c - 48)) s 0.

(** [token], decided. *)
Definition is_token (t : pystr) : bool :=
  match t with
  | [] => false
  | _ :: _ => forallb (fun c => negb (is_space c)) t
  end.

(** Lexicographic comparison of the six fields [strftime] prints. *)
Definition then_compare (c : comparison) (rest : comparison) : comparison :=
  match c with Eq => rest | _ => c end.

Definition clock_compare (a b : datetime) : comparison :=
  then_compare (year a ?= year b)
    (then_compare (month a ?= month b)
       (then_compare (day a ?= day b)
          (then_compare (hour a ?= hour b)
             (then_compare (minute a ?= minute b) (second a ?= second b))))).

(** Whether a cell takes a value, and the value it then holds. *)
Definition cell_ok (v : json) : bool :=
  match bind_value v with
  | Ok _ => true
  | Raise _ => false
  end.

Definition stored_cell (v : json) : json :=
  match v with
  | JStr s => JStr (take max_cell_length s)
  | _ => v
  end.

Definition stored_row (r : row) : row := List.map stored_cell r.

(** The moment, in microseconds, at which a clock that is [utc_offset]
    seconds ahead of UTC reads [local]: [datetime.now()] returns the reading
    of the local clock. *)
Definition instant (utc_offset : Z) (local : datetime) : Z :=
  to_microseconds local - utc_offset * 1000000.

(** A path a file can be written at: it is no folder, and when nothing is
    there yet, the folder above it exists. *)
Definition writable `{Platform} (f : gmap path node) (p : path) : Prop :=
  match f !! p with
  | Some Dir => False
  | Some _ => True
  | None => parent_error f p = None
  end.

(** The key of a record, for records that have one. *)
Definition key_of (u : json) : pystr * pystr :=
  match sort_key u with
  | Ok k => k
  | Raise _ => ([], [])
  end.

(** The five ways a call of the cache loader can go. *)
Inductive fetch_outcome `{Platform} (reply : net_reply) (w : world)
  : result unit -> world -> Prop :=
| FetchSkipped :
    is_Some (fs w !! USERS_JSON_FILE) ->
    fetch_outcome reply w (Ok tt)
      (World (fs w) (requests w) (logs w ++ [(1, MsgSkipped)]))
| FetchFailed e :
    fs w !! USERS_JSON_FILE = None -> caught reply = Some e ->
    fetch_outcome reply w (Ok tt)
      (World (fs w) (requests w ++ [(API_URL, 60)])
         (logs w ++ [(2, MsgFetchFailed e)]))
| FetchUnwritable status body e :
    fs w !! USERS_JSON_FILE = None -> reply = Reply status body ->
    raise_for_status status = None ->
    parent_error (fs w) USERS_JSON_FILE = Some e ->
    fetch_outcome reply w (Raise e)
      (World (fs w) (requests w ++ [(API_URL, 60)]) (logs w))
| FetchUndecodable status body e :
    fs w !! USERS_JSON_FILE = None -> reply = Reply status body ->
    raise_for_status status = None ->
    parent_error (fs w) USERS_JSON_FILE = None ->
    json_loads body = Raise e ->
    fetch_outcome reply w (Raise e)
      (World (<[USERS_JSON_FILE := TextFile []]> (fs w))
         (requests w ++ [(API_URL, 60)]) (logs w))
| FetchStored status body v :
    fs w !! USERS_JSON_FILE = None -> reply = Reply status body ->
    raise_for_status status = None ->
    parent_error (fs w) USERS_JSON_FILE = None ->
    json_loads body = Ok v ->
    fetch_outcome reply w (Ok tt)
      (World (<[USERS_JSON_FILE := TextFile (json_dumps v)]> (fs w))
         (requests w ++ [(API_URL, 60)])
         (logs w ++ [(1, MsgCreated USERS_JSON_FILE)])).

(** ** Sample data *)

Module Sample.
Import Reference.

Definition address (street city zipcode : string) : json :=
  JObj [(str "street", JStr (str street)); (str "city", JStr (str city));
        (str "zipcode", JStr (str zipcode))].

Definition user (name email phone website : string) (addr : json) : json :=
  JObj [(str "name", JStr (str name)); (str "email", JStr (str email));
        (str "address", addr); (str "phone", JStr (str phone));
        (str "website", JStr (str website))].

Definition jane : json :=
  user "Jane Doe" "j@x.com" "555" "x.com" (address "1 Main" "Springfield" "00001").

Definition jane_row : row :=
  [JStr (str "Doe"); JStr (str "Jane"); JStr (str "j@x.com");
   JStr (str "1 Main"); JStr (str "Springfield"); JStr (str "00001");
   JStr (str "555"); JStr (str "x.com")].

Definition alice : json :=
  user "Alice Zephyr" "a@x.com" "1" "a.com" (address "1 A St" "Aville" "1").
Definition bob : json :=
  user "Bob Able" "b@x.com" "2" "b.com" (address "2 B St" "Bville" "2").
Definition carl : json :=
  user "Carl Able" "c@x.com" "3" "c.com" (address "3 C St" "Cville" "3").

(** Two records that share the key (Able, Carl). *)
Definition carl_senior : json :=
  user "Carl  B.  Able" "senior@x.com" "4" "s.com" (address "4 D St" "Dville" "4").


Definition files : path := [str "files"].

(** The installation with its data folder and the output folder, and no
    snapshot yet. *)
Definition cold : world :=
  World {[ DATA_FOLDER := Dir; files := Dir ]} [] [].

(** The same with a snapshot that holds the text [text]. *)
Definition cached (text : pystr) : world :=
  World {[ DATA_FOLDER := Dir; files := Dir; USERS_JSON_FILE := TextFile text ]}
    [] [].

Definition snapshot_of (users : list json) : world :=
  cached (dumps (JArr users)).

(** What a stored response and a saved export leave behind. *)
Definition stored (text : pystr) : world :=
  World (<[USERS_JSON_FILE := TextFile text]> (fs cold)) [(API_URL, 60)]
    [(1, MsgCreated USERS_JSON_FILE)].

Definition exported (w : world) (now : datetime) (rows : sheet) : world :=
  World (<[files ++ [export_name now] := XlsxFile (header :: rows)]> (fs w))
    (requests w) (logs w ++ [(1, MsgSaved (files ++ [export_name now]))]).

Definition row_of (last_name first_name email street city zipcode phone website : string)
  : row :=
  List.map (fun s => JStr (str s))
    [last_name; first_name; email; street; city; zipcode; phone; website].

Definition alice_row : row :=
  row_of "Zephyr" "Alice" "a@x.com" "1 A St" "Aville" "1" "1" "a.com".
Definition bob_row : row :=
  row_of "Able" "Bob" "b@x.com" "2 B St" "Bville" "2" "2" "b.com".
Definition carl_row : row :=
  row_of "Able" "Carl" "c@x.com" "3 C St" "Cville" "3" "3" "c.com".

Definition dan_doe (middle : string) : json :=
  user ("Dan " ++ middle ++ " Doe") "d@x.com" "6" "d.com" (address "6 F St" "Fville" "6").

(** An installation whose data folder was never created. *)
Definition no_data_folder : world := World {[ files := Dir ]} [] [].

(** A snapshot, but no folder for the exports. *)
Definition no_output_folder (text : pystr) : world :=
  World {[ DATA_FOLDER := Dir; USERS_JSON_FILE := TextFile text ]} [] [].

(** A record whose website is a list, which no cell takes. *)
Definition listed : json :=
  JObj [(str "name", JStr (str "Eve Fox")); (str "email", JStr (str "e@x.com"));
        (str "address", address "7 G St" "Gville" "7"); (str "phone", JStr (str "7"));
        (str "website", JArr [JStr (str "e.com")])].

(** A record whose email has 32768 characters, one more than a cell
    holds, and its row with the email [email]. *)
Definition long_email : pystr := replicate (N.to_nat 32768) 120%N.

Definition long_mail : json :=
  JObj [(str "name", JStr (str "Lee Long")); (str "email", JStr long_email);
        (str "address", address "8 H St" "Hville" "8"); (str "phone", JStr (str "8"));
        (str "website", JStr (str "l.com"))].

Definition long_mail_row (email : pystr) : row :=
  [JStr (str "Long"); JStr (str "Lee"); JStr email; JStr (str "8 H St");
   JStr (str "Hville"); JStr (str "8"); JStr (str "8"); JStr (str "l.com")].

Definition noon : datetime := Datetime 2024 3 9 12 0 0 0.
Definition one_second_later : datetime := Datetime 2024 3 9 12 0 1 0.
Definition new_year_eve : datetime := Datetime 2023 12 31 23 59 59 999999.
Definition new_year : datetime := Datetime 2024 1 1 0 0 1 0.
End Sample.

(** * Properties *)

(** ** Results *)

Lemma rbind_Ok {A B} (r : result A) (k : A -> result B) (b : B) :
  rbind r k = Ok b -> exists a, r = Ok a /\ k a = Ok b.
Proof. destruct r as [a|e]; simpl; [eauto | discriminate]. Qed.

Ltac inv_result :=
  repeat match goal with
    | H : rbind _ _ = Ok _ |- _ =>
        let a := fresh "a" in let Ha := fresh "Ha" in
        apply rbind_Ok in H; destruct H as (a & Ha & H)
    | H : Ok _ = Ok _ |- _ => injection H as H; subst
    | H : Raise _ = Ok _ |- _ => discriminate H
    end.

Lemma rmap_Ok_Forall2 {A B} (f : A -> result B) (l : list A) (bs : list B) :
  rmap f l = Ok bs <-> Forall2 (fun a b => f a = Ok b) l bs.
Proof.
  revert bs; induction l as [|a l IH]; intros bs; simpl.
  - split; [intros [= <-]; constructor | inversion 1; reflexivity].
  - split.
    + intros E; inv_result. constructor; [assumption | by apply IH].
    + inversion 1 as [|? b ? bs' Hb Hbs]; subst.
      rewrite Hb; simpl. apply IH in Hbs. by rewrite Hbs.
Qed.


(** ** The order on strings and on keys *)

Lemma str_compare_refl a : str_compare a a = Eq.
Proof. induction a as [|x a IH]; simpl; [done|]. by rewrite N.compare_refl. Qed.

Lemma str_compare_eq a b : str_compare a b = Eq -> a = b.
Proof.
  revert b; induction a as [|x a IH]; intros [|y b]; simpl; try done.
  destruct (N.compare_spec x y); try done. intros E; f_equal; auto.
Qed.

Lemma str_compare_antisym a b : str_compare b a = CompOpp (str_compare a b).
Proof.
  revert b; induction a as [|x a IH]; intros [|y b]; simpl; try done.
  rewrite (N.compare_antisym x y).
  destruct (N.compare x y); simpl; auto.
Qed.

Lemma str_compare_trans a b c :
  str_compare a b = Lt -> str_compare b c = Lt -> str_compare a c = Lt.
Proof.
  revert b c; induction a as [|x a IH]; intros [|y b] [|z c]; simpl; try done.
  destruct (N.compare_spec x y) as [->|Hxy|Hxy]; try done;
    destruct (N.compare_spec y z) as [->|Hyz|Hyz]; try done.
  - apply IH.
  - intros _ _. by apply N.compare_lt_iff in Hxy as ->.
  - intros _ _. assert (x < z)%N as ->%N.compare_lt_iff by lia. done.
Qed.

(** Code-point lexicographic order, spelled out: [a] is a proper prefix of
    [b], or the two differ first at a position where [a] has the smaller
    code point. *)
Lemma str_lt_spec a b :
  str_lt a b = true <->
  (exists c r, b = a ++ c :: r) \/
  (exists p x y ra rb, a = p ++ x :: ra /\ b = p ++ y :: rb /\ (x < y)%N).
Proof.
  unfold str_lt. revert b; induction a as [|x a IH]; intros [|y b]; simpl.
  - split; [done|]. intros [(c & r & E)|(p & x & y & ra & rb & E & _)];
      [done | by destruct p].
  - split; [intros _; left; eauto | done].
  - split; [done|]. intros [(c & r & E)|(p & x' & y & ra & rb & _ & E & _)];
      [done | by destruct p].
  - destruct (N.compare_spec x y) as [->|Hxy|Hxy].
    + rewrite IH. split.
      * intros [(c & r & ->)|(p & x' & y' & ra & rb & -> & -> & Hlt)].
        -- left; eauto.
        -- right. exists (y :: p), x', y', ra, rb. done.
      * intros [(c & r & [= ->])|(p & x' & y' & ra & rb & Ea & Eb & Hlt)].
        -- left; eauto.
        -- destruct p as [|z p]; simplify_eq/=; [lia|].
           right. exists p, x', y', ra, rb. done.
    + split; [intros _|done]. right. exists [], x, y, a, b. done.
    + split; [done|].
      intros [(c & r & [= -> _])|(p & x' & y' & ra & rb & Ea & Eb & Hlt)]; [lia|].
      destruct p as [|z p]; simplify_eq/=; lia.
Qed.

Lemma key_compare_refl k : key_compare k k = Eq.
Proof. unfold key_compare. by rewrite !str_compare_refl. Qed.

Lemma key_compare_eq a b : key_compare a b = Eq -> a = b.
Proof.
  destruct a as [a1 a2], b as [b1 b2]; unfold key_compare; simpl.
  destruct (str_compare a1 b1) eqn:E1; try done.
  intros E2. by rewrite (str_compare_eq _ _ E1), (str_compare_eq _ _ E2).
Qed.

Lemma key_compare_antisym a b : key_compare b a = CompOpp (key_compare a b).
Proof.
  unfold key_compare. rewrite (str_compare_antisym (fst a) (fst b)).
  destruct (str_compare (fst a) (fst b)); simpl; auto using str_compare_antisym.
Qed.

Lemma key_compare_trans a b c :
  key_compare a b = Lt -> key_compare b c = Lt -> key_compare a c = Lt.
Proof.
  unfold key_compare.
  destruct (str_compare (fst a) (fst b)) eqn:E1; try done;
  destruct (str_compare (fst b) (fst c)) eqn:E2; try done; intros H1 H2.
  - apply str_compare_eq in E1, E2. rewrite E1, E2, str_compare_refl.
    eauto using str_compare_trans.
  - apply str_compare_eq in E1. by rewrite E1, E2.
  - apply str_compare_eq in E2. by rewrite <- E2, E1.
  - by rewrite (str_compare_trans _ _ _ E1 E2).
Qed.

(** ** The stable sort *)

Section SortFacts.
Context {K V : Type} `{EqDecision K} (lt : K -> K -> bool).
Hypothesis lt_asym : forall a b, lt a b = true -> lt b a = false.
Hypothesis le_trans :
  forall a b c, lt b a = false -> lt c b = false -> lt c a = false.
Hypothesis le_antisym : forall a b, lt a b = false -> lt b a = false -> a = b.

Implicit Types (x y : K * V) (l : list (K * V)).
Local Abbreviation keyed_le := (keyed_le lt).

Lemma lt_irrefl a : lt a a = false.
Proof. destruct (lt a a) eqn:E; [by rewrite (lt_asym _ _ E) in E | done]. Qed.

Lemma insert_keyed_perm x l : insert_keyed lt x l ≡ₚ x :: l.
Proof.
  induction l as [|y l IH]; simpl; [done|].
  destruct (lt (fst y) (fst x)); [|done].
  rewrite IH. apply Permutation_swap.
Qed.

Lemma sort_keyed_perm l : sort_keyed lt l ≡ₚ l.
Proof.
  induction l as [|x l IH]; simpl; [done|].
  by rewrite insert_keyed_perm, IH.
Qed.

Lemma insert_keyed_sorted x l :
  StronglySorted keyed_le l -> StronglySorted keyed_le (insert_keyed lt x l).
Proof.
  induction 1 as [|y l Hl IH Hy]; simpl.
  - repeat constructor.
  - destruct (lt (fst y) (fst x)) eqn:E.
    + constructor; [assumption|].
      rewrite insert_keyed_perm. constructor; [|assumption].
      by apply lt_asym.
    + constructor; [by constructor|].
      constructor; [assumption|].
      eapply Forall_impl; [exact Hy|].
      intros z Hz. unfold keyed_le in *. eauto.
Qed.

Lemma sort_keyed_sorted l : StronglySorted keyed_le (sort_keyed lt l).
Proof.
  induction l as [|x l IH]; simpl; [constructor|].
  by apply insert_keyed_sorted.
Qed.

(** Elements of one key keep their relative order. *)
Lemma insert_keyed_stable k x l :
  filter (fun p => fst p = k) (insert_keyed lt x l)
  = filter (fun p => fst p = k) (x :: l).
Proof.
  induction l as [|y l IH]; simpl; [done|].
  destruct (lt (fst y) (fst x)) eqn:E; [|done].
  rewrite (filter_cons _ y), IH, !(filter_cons _ x), !(filter_cons _ y).
  destruct (decide (fst y = k)) as [Hy|]; [|done].
  destruct (decide (fst x = k)) as [Hx|]; [|done].
  rewrite Hx, Hy, lt_irrefl in E. discriminate.
Qed.

Lemma sort_keyed_stable k l :
  filter (fun p => fst p = k) (sort_keyed lt l)
  = filter (fun p => fst p = k) l.
Proof.
  induction l as [|x l IH]; simpl; [done|].
  by rewrite insert_keyed_stable, !filter_cons, IH.
Qed.

(** Sortedness and stability leave no choice: every stable sorting
    procedure returns the list [sort_keyed] returns. *)
Lemma stable_sorted_unique (l1 l2 : list (K * V)) :
  StronglySorted keyed_le l1 -> StronglySorted keyed_le l2 ->
  (forall k, filter (fun p => fst p = k) l1 = filter (fun p => fst p = k) l2) ->
  l1 = l2.
Proof.
  intros H1; revert l2.
  induction H1 as [|x l1 Hs1 IH Hx]; intros l2 H2 Hf.
  - destruct l2 as [|y l2]; [done|].
    specialize (Hf (fst y)). rewrite filter_cons_True in Hf by done.
    discriminate.
  - destruct H2 as [|y l2 Hs2 Hy].
    + specialize (Hf (fst x)). rewrite filter_cons_True in Hf by done.
      discriminate.
    + destruct (decide (fst y = fst x)) as [E|NE].
      * assert (x = y) as <-.
        { specialize (Hf (fst x)).
          rewrite !filter_cons_True in Hf by done. congruence. }
        f_equal. apply IH; [assumption|]. intros k.
        specialize (Hf k). rewrite !(filter_cons _ x) in Hf.
        destruct (decide (fst x = k)); congruence.
      * exfalso. apply NE.
        assert (x ∈ l2) as Hxin.
        { assert (x ∈ filter (fun p => fst p = fst x) (y :: l2)) as Hin.
          { rewrite <- Hf, filter_cons_True by done. left. }
          apply list_elem_of_filter in Hin as [_ Hin].
          apply elem_of_cons in Hin as [->|Hin]; [done|assumption]. }
        assert (y ∈ l1) as Hyin.
        { assert (y ∈ filter (fun p => fst p = fst y) (x :: l1)) as Hin.
          { rewrite Hf, filter_cons_True by done. left. }
          apply list_elem_of_filter in Hin as [_ Hin].
          apply elem_of_cons in Hin as [->|Hin]; [done|assumption]. }
        rewrite Forall_forall in Hx, Hy.
        apply le_antisym; [apply (Hx _ Hyin) | apply (Hy _ Hxin)].
Qed.
End SortFacts.

(** ** [sorted], on the records *)

Lemma key_lt_asym a b : key_lt a b = true -> key_lt b a = false.
Proof.
  unfold key_lt. rewrite (key_compare_antisym a b).
  by destruct (key_compare a b).
Qed.

Lemma key_le_trans a b c :
  key_lt b a = false -> key_lt c b = false -> key_lt c a = false.
Proof.
  unfold key_lt. intros Hba Hcb.
  destruct (key_compare c a) eqn:Hca; try done. exfalso.
  destruct (key_compare b a) eqn:E1; try done;
  destruct (key_compare c b) eqn:E2; try done.
  - apply key_compare_eq in E1, E2. subst. by rewrite key_compare_refl in Hca.
  - apply key_compare_eq in E1. subst. congruence.
  - apply key_compare_eq in E2. subst. congruence.
  - rewrite (key_compare_antisym a b) in E1. rewrite (key_compare_antisym b c) in E2.
    destruct (key_compare a b) eqn:F1; try done.
    destruct (key_compare b c) eqn:F2; try done.
    pose proof (key_compare_trans _ _ _ F1 F2) as F3.
    rewrite (key_compare_antisym a c), F3 in Hca. done.
Qed.

Lemma key_le_antisym a b : key_lt a b = false -> key_lt b a = false -> a = b.
Proof.
  unfold key_lt. rewrite (key_compare_antisym a b). intros H1 H2.
  apply key_compare_eq. by destruct (key_compare a b).
Qed.

Lemma decorate_Ok items pairs :
  decorate items = Ok pairs ->
  List.map snd pairs = items /\
  Forall (fun p => sort_key (snd p) = Ok (fst p)) pairs.
Proof.
  unfold decorate. intros E; inv_result.
  apply rmap_Ok_Forall2 in Ha.
  induction Ha as [|u k items keys Hk _ [IH1 IH2]]; simpl; [done|].
  split; [by f_equal | by constructor].
Qed.

Lemma filter_keyed_users k (pairs : list ((pystr * pystr) * json)) :
  Forall (fun p => sort_key (snd p) = Ok (fst p)) pairs ->
  filter (fun u => sort_key u = Ok k) (List.map snd pairs)
  = List.map snd (filter (fun p => fst p = k) pairs).
Proof.
  induction 1 as [|p pairs Hp _ IH]; simpl; [done|].
  rewrite (filter_cons _ (snd p)), (filter_cons _ p), IH.
  destruct (decide (sort_key (snd p) = Ok k)) as [E|NE];
    destruct (decide (fst p = k)) as [E'|NE']; simpl; try done.
  - rewrite Hp in E. by injection E.
  - rewrite Hp, E' in NE. done.
Qed.

(** What [sorted] returns is the input, all of it, in ascending key order,
    equal keys in input order. *)
Lemma sorted_spec users items out :
  iterate users = Ok items -> sorted users = Ok out ->
  items ≡ₚ out /\ ascending out /\ stable items out.
Proof.
  unfold sorted. intros -> E; simpl in E. inv_result.
  rename a into pairs.
  destruct (decorate_Ok _ _ Ha) as [Hsnd Hkeys].
  assert (Forall (fun p => sort_key (snd p) = Ok (fst p))
            (sort_keyed key_lt pairs)) as Hkeys'.
  { by rewrite sort_keyed_perm. }
  split; [|split].
  - rewrite <- Hsnd. apply Permutation_map. symmetry. apply sort_keyed_perm.
  - unfold ascending.
    pose proof (sort_keyed_sorted key_lt key_lt_asym key_le_trans pairs) as Hs.
    induction Hs as [|p l Hs IH Hp]; simpl; [constructor|].
    apply Forall_cons in Hkeys' as [Hk Hkeys'].
    constructor; [by apply IH|].
    apply Forall_forall. intros v Hv.
    apply list_elem_of_fmap in Hv as (q & -> & Hq).
    rewrite Forall_forall in Hp, Hkeys'.
    exists (fst p), (fst q). split_and!; [done | by apply Hkeys' | by apply Hp].
  - intros k. rewrite <- Hsnd.
    rewrite !filter_keyed_users by assumption.
    f_equal. apply sort_keyed_stable. apply key_lt_asym.
Qed.

(** [sorted] succeeds exactly when every key can be computed. *)
Lemma sorted_Ok_keys users items :
  iterate users = Ok items ->
  (exists out, sorted users = Ok out) <-> Forall (fun u => exists k, sort_key u = Ok k) items.
Proof.
  unfold sorted, decorate. intros ->; simpl. split.
  - intros [out E]. inv_result. apply rmap_Ok_Forall2 in Ha0.
    induction Ha0; constructor; eauto.
  - intros Hall.
    assert (exists keys, rmap sort_key items = Ok keys) as [keys ->].
    { induction Hall as [|u l [k Hk] _ [keys IH]]; simpl; [eauto|].
      rewrite Hk, IH; simpl; eauto. }
    simpl. eauto.
Qed.

(** ** Name tokens *)

Lemma split_from_app cur t s :
  Forall (fun c => is_space c = false) t ->
  split_from cur (t ++ s) = split_from (rev t ++ cur) s.
Proof.
  revert cur; induction t as [|c t IH]; intros cur Ht; simpl; [done|].
  apply Forall_cons in Ht as [-> Ht].
  rewrite IH by assumption. by rewrite <- app_assoc.
Qed.

Lemma flush_rev t toks : t <> [] -> flush (rev t) toks = t :: toks.
Proof.
  intros Hne. unfold flush.
  destruct (rev t) eqn:E; [|by rewrite <- E, rev_involutive].
  apply (f_equal (@length N)) in E. rewrite length_rev in E.
  by destruct t.
Qed.

Lemma split_token t : token t -> split t = [t].
Proof.
  intros [Hne Ht]. unfold split.
  rewrite <- (app_nil_r t) at 1. rewrite split_from_app by assumption.
  simpl. rewrite app_nil_r. by apply flush_rev.
Qed.

(** Splitting the tokens joined by single spaces gives the tokens back. *)
Lemma split_unwords toks : Forall token toks -> split (unwords toks) = toks.
Proof.
  induction 1 as [|t toks Ht Htoks IH]; [done|].
  destruct toks as [|t' toks]; [by apply split_token|].
  change (unwords (t :: t' :: toks)) with (t ++ 32%N :: unwords (t' :: toks)).
  unfold split in *. destruct Ht as [Hne Ht].
  rewrite split_from_app by assumption. rewrite app_nil_r.
  change (split_from (rev t) (32%N :: unwords (t' :: toks)))
    with (flush (rev t) (split_from [] (unwords (t' :: toks)))).
  rewrite IH. by apply flush_rev.
Qed.

Lemma flush_tokens cur toks :
  Forall (fun c => is_space c = false) cur ->
  Forall token toks -> Forall token (flush cur toks).
Proof.
  intros Hcur Htoks. destruct cur as [|c cur]; [done|].
  unfold flush. constructor; [|assumption].
  split; [|by apply Forall_rev].
  intros E. apply (f_equal (@length N)) in E. by rewrite length_rev in E.
Qed.

(** Every string [split] returns is a token. *)
Lemma split_from_tokens cur s :
  Forall (fun c => is_space c = false) cur ->
  Forall token (split_from cur s).
Proof.
  revert cur; induction s as [|c s IH]; intros cur Hcur; simpl.
  - by apply flush_tokens.
  - destruct (is_space c) eqn:Hc.
    + apply flush_tokens; [assumption | by apply IH].
    + apply IH. by constructor.
Qed.

Lemma split_tokens s : Forall token (split s).
Proof. by apply split_from_tokens. Qed.

(** ** Keys and rows of one record *)

Lemma getitem_field u k x : getitem u (str k) = Ok x <-> field u k = Some x.
Proof.
  unfold getitem, field. destruct u; try (split; discriminate).
  destruct (dict_get (str k) members); split; congruence.
Qed.

Lemma getitem_missing u m k :
  u = JObj m -> field u k = None -> getitem u (str k) = Raise (KeyError (str k)).
Proof. intros -> E. unfold getitem. simpl in E. by rewrite E. Qed.

Lemma last_name_Ok u l :
  last_name u = Ok l <->
  exists name, field u "name" = Some (JStr name) /\ last (split name) = Some l.
Proof.
  unfold last_name. split.
  - intros E. inv_result. apply getitem_field in Ha.
    destruct a; try discriminate. simpl in Ha0. inv_result.
    unfold last_item in E. exists s. split; [done|].
    destruct (last (split s)); congruence.
  - intros (name & Hn & Hl). apply getitem_field in Hn.
    rewrite Hn; simpl. unfold last_item. by rewrite Hl.
Qed.

Lemma first_name_Ok u f :
  first_name u = Ok f <->
  exists name, field u "name" = Some (JStr name) /\ head (split name) = Some f.
Proof.
  unfold first_name. split.
  - intros E. inv_result. apply getitem_field in Ha.
    destruct a; try discriminate. simpl in Ha0. inv_result.
    exists s. split; [done|]. by destruct (split s); simplify_eq/=.
  - intros (name & Hn & Hf). apply getitem_field in Hn.
    rewrite Hn; simpl. destruct (split name); by simplify_eq/=.
Qed.

Lemma sort_key_Ok u k :
  sort_key u = Ok k <->
  exists name, field u "name" = Some (JStr name) /\
    last (split name) = Some (fst k) /\ head (split name) = Some (snd k).
Proof.
  unfold sort_key. split.
  - intros E. inv_result.
    apply last_name_Ok in Ha as (name & Hn & Hl).
    apply first_name_Ok in Ha0 as (name' & Hn' & Hf).
    exists name. simpl. split_and!; [done..|congruence].
  - destruct k as [l f]. intros (name & Hn & Hl & Hf).
    assert (last_name u = Ok l) as -> by (apply last_name_Ok; eauto).
    assert (first_name u = Ok f) as -> by (apply first_name_Ok; eauto).
    done.
Qed.

(** The row the loop builds for a record is the export row of the data
    model, and the loop builds one whenever there is one. *)
Lemma export_row_spec u r : export_row u = Ok r <-> is_export_row u r.
Proof.
  unfold export_row, is_export_row. split.
  - intros E. inv_result.
    apply last_name_Ok in Ha as (name & Hn & Hl).
    apply first_name_Ok in Ha0 as (name' & Hn' & Hf).
    repeat match goal with
           | H : getitem _ (str _) = Ok _ |- _ => apply getitem_field in H
           end.
    repeat match goal with
           | H1 : field ?v ?k = Some ?x, H2 : field ?v ?k = Some ?y |- _ =>
               rewrite H1 in H2; injection H2 as <-
           end.
    do 10 eexists. split_and!; try eassumption. reflexivity.
  - intros (name & f & l & email & addr & st & ci & zi & ph & we &
            Hn & Hf & Hl & He & Ha & Hst & Hci & Hzi & Hph & Hwe & ->).
    assert (last_name u = Ok l) as -> by (apply last_name_Ok; eauto).
    assert (first_name u = Ok f) as -> by (apply first_name_Ok; eauto).
    apply getitem_field in He, Ha, Hst, Hci, Hzi, Hph, Hwe.
    cbn [rbind]. rewrite He; cbn [rbind]. rewrite !Ha; cbn [rbind].
    rewrite Hst; cbn [rbind]. rewrite Hci; cbn [rbind].
    rewrite Hzi; cbn [rbind]. rewrite Hph; cbn [rbind]. by rewrite Hwe.
Qed.


(** ** The two operations on the world *)

Section ProgramFacts.
Context `{Platform}.

Lemma bind_value_stored v c : bind_value v = Ok c -> c = stored_cell v.
Proof.
  destruct v; simpl; try congruence. unfold check_string.
  destruct (existsb illegal_character _); simpl; congruence.
Qed.

Lemma rmap_bind_value_stored (r cells : row) :
  rmap bind_value r = Ok cells -> cells = stored_row r.
Proof.
  revert cells; induction r as [|v r IH]; intros cells E; simpl in *.
  - by inv_result.
  - inv_result. apply bind_value_stored in Ha. apply IH in Ha0.
    unfold stored_row in *. simpl. congruence.
Qed.

Lemma rmap_bind_value_Ok (r : row) :
  forallb cell_ok r = true -> rmap bind_value r = Ok (stored_row r).
Proof.
  induction r as [|v r IH]; simpl; [done|].
  intros [Hv Hr]%andb_prop. unfold cell_ok in Hv.
  destruct (bind_value v) as [c|] eqn:E; [|done].
  apply bind_value_stored in E as ->. simpl. by rewrite (IH Hr).
Qed.

Lemma rmap_bind_value_Raise (r : row) :
  forallb cell_ok r = false -> exists e, rmap bind_value r = Raise e.
Proof.
  induction r as [|v r IH]; simpl; [done|].
  unfold cell_ok at 1. destruct (bind_value v) as [c|e]; simpl; [|eauto].
  intros Hr. destruct (IH Hr) as [e ->]. simpl. eauto.
Qed.

Lemma rmap_bind_value_cells (r cells : row) :
  rmap bind_value r = Ok cells -> forallb cell_ok r = true.
Proof.
  intros E. destruct (forallb cell_ok r) eqn:Hc; [done|].
  destruct (rmap_bind_value_Raise r Hc) as [e He]. congruence.
Qed.

(** The header holds eight short strings of letters and spaces. *)
Lemma header_cells : rmap bind_value header = Ok header.
Proof. vm_compute. reflexivity. Qed.

Lemma ws_append_header : ws_append [] header = Ok [header].
Proof. unfold ws_append. by rewrite header_cells. Qed.

Lemma append_rows_Ok ws users ws' :
  append_rows ws users = Ok ws' ->
  exists rows,
    rmap export_row users = Ok rows /\
    ws' = ws ++ List.map stored_row rows /\
    Forall (fun r => forallb cell_ok r = true) rows.
Proof.
  revert ws; induction users as [|u users IH]; intros ws E; simpl in *.
  - inv_result. exists []. by rewrite app_nil_r.
  - inv_result. unfold ws_append in Ha0. inv_result.
    pose proof (rmap_bind_value_cells _ _ Ha1) as Hc.
    apply rmap_bind_value_stored in Ha1 as ->.
    destruct (IH _ E) as (rows & Hrows & -> & Hok).
    exists (a :: rows). rewrite Ha, Hrows; simpl.
    split_and!; [done | by rewrite <- app_assoc | by constructor].
Qed.

Lemma append_rows_Raise ws users e :
  rmap export_row users = Raise e -> exists e', append_rows ws users = Raise e'.
Proof.
  revert ws; induction users as [|u users IH]; intros ws E; simpl in *; [done|].
  destruct (export_row u) as [r|e1]; simpl in *; [|eauto].
  destruct (ws_append ws r) as [ws1|e2]; simpl; [|eauto].
  destruct (rmap export_row users); simpl in *; [done|]. eauto.
Qed.

Lemma create_Ok p n w w' :
  create p n w = (Ok tt, w') -> w' = set_fs <[p := n]> w.
Proof.
  unfold create. intros E.
  destruct (fs w !! p) as [[]|]; simplify_eq/=; try done.
  by destruct (parent_error (fs w) p); simplify_eq/=.
Qed.

(** The export, once the snapshot has been read and decoded. *)
Lemma write_from_snapshot now folder w text users :
  fs w !! USERS_JSON_FILE = Some (TextFile text) ->
  json_loads text = Ok users ->
  write_user_data_to_excel now folder w
  = match sorted users with
    | Raise e => (Raise e, w)
    | Ok sorted_users =>
        match append_rows [header] sorted_users with
        | Raise e => (Raise e, w)
        | Ok ws =>
            match create (folder ++ [export_name now]) (XlsxFile ws) w with
            | (Ok _, w1) => log 1 (MsgSaved (folder ++ [export_name now])) w1
            | (Raise e, w1) => (Raise e, w1)
            end
        end
    end.
Proof.
  intros Hp Hl. unfold write_user_data_to_excel, bind, lift, read_text, json_load.
  rewrite Hp, Hl, ws_append_header.
  destruct (sorted users); [|done].
  by destruct (append_rows _ _).
Qed.

(** A successful export: what was read, and the world it leaves. *)
Lemma write_user_data_to_excel_Ok now folder w w' :
  write_user_data_to_excel now folder w = (Ok tt, w') ->
  exists text users sorted_users rows,
    fs w !! USERS_JSON_FILE = Some (TextFile text) /\
    json_loads text = Ok users /\
    sorted users = Ok sorted_users /\
    rmap export_row sorted_users = Ok rows /\
    w' = World (<[folder ++ [export_name now]
                  := XlsxFile (header :: List.map stored_row rows)]> (fs w))
           (requests w)
           (logs w ++ [(1, MsgSaved (folder ++ [export_name now]))]).
Proof.
  intros E.
  assert (exists text users,
             fs w !! USERS_JSON_FILE = Some (TextFile text) /\
             json_loads text = Ok users) as (text & users & Hp & Hl).
  { destruct (fs w !! USERS_JSON_FILE) as [[|text|]|] eqn:Hp.
    1, 3, 4:
      exfalso; revert E; unfold write_user_data_to_excel, bind at 1, read_text;
      rewrite Hp; try destruct (parent_error (fs w) USERS_JSON_FILE); done.
    destruct (json_loads text) as [users|e0] eqn:Hl; [eauto|].
    exfalso. revert E.
    unfold write_user_data_to_excel, bind, read_text, lift, json_load.
    by rewrite Hp, Hl. }
  rewrite (write_from_snapshot _ _ _ _ _ Hp Hl) in E.
  destruct (sorted users) as [sorted_users|] eqn:Hs; [|done].
  destruct (append_rows [header] sorted_users) as [ws|] eqn:Ha; [|done].
  apply append_rows_Ok in Ha as (rows & Hrows & -> & _).
  exists text, users, sorted_users, rows. split_and!; try done.
  destruct (create _ _ w) as [[[]|e'] w1] eqn:Hc; simplify_eq/=.
  apply create_Ok in Hc as ->. unfold log in E. by simplify_eq/=.
Qed.

Lemma create_Raise p n w e w' : create p n w = (Raise e, w') -> w' = w.
Proof.
  unfold create. intros E.
  destruct (fs w !! p) as [[]|]; simplify_eq/=; try done.
  by destruct (parent_error (fs w) p); simplify_eq/=.
Qed.

Lemma write_user_data_to_excel_Raise now folder w e w' :
  write_user_data_to_excel now folder w = (Raise e, w') -> w' = w.
Proof.
  intros E.
  destruct (fs w !! USERS_JSON_FILE) as [[|text|]|] eqn:Hp.
  1, 3, 4:
    revert E; unfold write_user_data_to_excel, bind at 1, read_text;
    rewrite Hp; try destruct (parent_error (fs w) USERS_JSON_FILE);
    by intros [= _ <-].
  destruct (json_loads text) as [users|e0] eqn:Hl.
  - rewrite (write_from_snapshot _ _ _ _ _ Hp Hl) in E.
    destruct (sorted users); [|by simplify_eq].
    destruct (append_rows _ _); [|by simplify_eq].
    destruct (create _ _ w) as [[[]|e'] w1] eqn:Hc; simplify_eq/=.
    by apply create_Raise in Hc.
  - revert E. unfold write_user_data_to_excel, bind, read_text, lift, json_load.
    rewrite Hp, Hl. by intros [= _ <-].
Qed.

Lemma try_fetch_spec reply w :
  try_fetch reply w =
  (Ok match caught reply with
      | Some e => inl e
      | None => inr match reply with Reply _ body => body | NoReply _ => [] end
      end,
   World (fs w) (requests w ++ [(API_URL, 60)]) (logs w)).
Proof.
  unfold try_fetch, bind, requests_get, ret, caught.
  destruct reply as [cause|status body]; [done|].
  by destruct (raise_for_status status).
Qed.

(** The snapshot is there: nothing but the log line. *)
Lemma fetch_present reply w :
  is_Some (fs w !! USERS_JSON_FILE) ->
  fetch_user_data_to_json reply w
  = (Ok tt, World (fs w) (requests w) (logs w ++ [(1, MsgSkipped)])).
Proof.
  intros Hp. unfold fetch_user_data_to_json, bind at 1, path_exists.
  by rewrite bool_decide_eq_true_2.
Qed.

(** No snapshot, and the [try] block catches [e]. *)
Lemma fetch_caught reply w e :
  fs w !! USERS_JSON_FILE = None -> caught reply = Some e ->
  fetch_user_data_to_json reply w
  = (Ok tt, World (fs w) (requests w ++ [(API_URL, 60)])
              (logs w ++ [(2, MsgFetchFailed e)])).
Proof.
  intros Hp He. unfold fetch_user_data_to_json, bind, path_exists.
  rewrite bool_decide_eq_false_2 by (rewrite Hp; by intros [? ?]).
  by rewrite try_fetch_spec, He.
Qed.

(** No snapshot, a response that passes, a folder to write in, and a body
    that decodes. *)
Lemma fetch_stored status body v w :
  fs w !! USERS_JSON_FILE = None ->
  raise_for_status status = None ->
  parent_error (fs w) USERS_JSON_FILE = None ->
  json_loads body = Ok v ->
  fetch_user_data_to_json (Reply status body) w
  = (Ok tt, World (<[USERS_JSON_FILE := TextFile (json_dumps v)]> (fs w))
              (requests w ++ [(API_URL, 60)])
              (logs w ++ [(1, MsgCreated USERS_JSON_FILE)])).
Proof.
  intros Hp Hs Hd Hv. unfold fetch_user_data_to_json, bind, path_exists.
  rewrite bool_decide_eq_false_2 by (rewrite Hp; by intros [? ?]).
  rewrite try_fetch_spec. unfold caught. rewrite Hs.
  unfold open_w, create, lift, json_load, write_text, log, set_fs. simpl.
  rewrite Hp, Hd, Hv. simpl. by rewrite insert_insert_eq.
Qed.

(** Whatever the call does, it changes the file system only after a
    response that [raise_for_status] lets through. *)
Lemma fetch_writes_only_after_success reply w r w' :
  fetch_user_data_to_json reply w = (r, w') ->
  fs w' <> fs w -> caught reply = None.
Proof.
  intros E Hne.
  destruct (fs w !! USERS_JSON_FILE) as [n|] eqn:Hp.
  - rewrite fetch_present in E by eauto. by simplify_eq/=.
  - destruct (caught reply) as [e|] eqn:He; [|done].
    rewrite (fetch_caught _ _ e) in E by done. by simplify_eq/=.
Qed.

End ProgramFacts.

(** * The claims of the specification *)

(** Closes an equation between closed terms by evaluating both sides. *)
Ltac by_evaluation :=
  lazymatch goal with
  | |- ?a = ?b => vm_cast_no_check (@eq_refl _ b)
  end.

Lemma lookup_ne_fs_ne (w w' : world) (p : path) :
  fs w' !! p <> fs w !! p -> fs w' <> fs w.
Proof. intros Hne E. by rewrite E in Hne. Qed.

Lemma is_token_token t : is_token t = true -> token t.
Proof.
  destruct t as [|c t]; [done|]. intros Hb. split; [done|].
  apply Forall_forall. intros x Hx. unfold is_token in Hb.
  rewrite forallb_forall in Hb. apply list_elem_of_In in Hx.
  specialize (Hb x Hx). by destruct (is_space x).
Qed.

(** ** The cache loader *)

(** C1, as amended. When the snapshot file exists, the call returns at
    once: no request is issued and the file system is untouched (only the
    skip line is logged). And when the snapshot is missing and the first
    call stores a response (a status that passes, a body that decodes, a
    data folder to write in), two calls in succession issue exactly one
    request, the second being a no-op on the file system. *)
Theorem cache_by_presence `{Platform} :
  (forall reply w,
     is_Some (fs w !! USERS_JSON_FILE) ->
     fetch_user_data_to_json reply w
     = (Ok tt, World (fs w) (requests w) (logs w ++ [(1, MsgSkipped)]))) /\
  (forall status body v reply2 w,
     fs w !! USERS_JSON_FILE = None ->
     raise_for_status status = None ->
     parent_error (fs w) USERS_JSON_FILE = None ->
     json_loads body = Ok v ->
     exists w1 w2,
       fetch_user_data_to_json (Reply status body) w = (Ok tt, w1) /\
       fetch_user_data_to_json reply2 w1 = (Ok tt, w2) /\
       requests w2 = requests w ++ [(API_URL, 60)] /\
       fs w1 !! USERS_JSON_FILE = Some (TextFile (json_dumps v)) /\
       fs w2 = fs w1 /\ requests w2 = requests w1).
Proof.
  split; [apply fetch_present|].
  intros status body v reply2 w Hp Hs Hd Hv.
  eexists _, _. split; [by apply fetch_stored|].
  split; [apply fetch_present; simpl; by rewrite lookup_insert_eq|].
  simpl. split_and!; try done. by rewrite lookup_insert_eq.
Qed.

(** The witness of C1: a present snapshot, and a cold start whose first
    fetch is answered with the record of Jane Doe. *)
Lemma cache_by_presence_witness :
  fetch_user_data_to_json (NoReply (str "unreachable")) (Sample.cached (str "[]"))
  = (Ok tt, World (fs (Sample.cached (str "[]")))
              (requests (Sample.cached (str "[]")))
              (logs (Sample.cached (str "[]")) ++ [(1, MsgSkipped)])) /\
  exists w1 w2,
    fetch_user_data_to_json (Reply 200 (Reference.dumps (JArr [Sample.jane])))
      Sample.cold = (Ok tt, w1) /\
    fetch_user_data_to_json (NoReply (str "unreachable")) w1 = (Ok tt, w2) /\
    requests w2 = requests Sample.cold ++ [(API_URL, 60)] /\
    fs w1 !! USERS_JSON_FILE = Some (TextFile (json_dumps (JArr [Sample.jane]))) /\
    fs w2 = fs w1 /\ requests w2 = requests w1.
Proof.
  split.
  - apply (proj1 (@cache_by_presence Reference.platform)).
    exists (TextFile (str "[]")). by_evaluation.
  - apply (proj2 (@cache_by_presence Reference.platform) 200
             (Reference.dumps (JArr [Sample.jane])) (JArr [Sample.jane])
             (NoReply (str "unreachable")) Sample.cold); by_evaluation.
Defined.

(** C1, as stated, fails: on a missing snapshot with the network down,
    two calls in succession issue two requests, and the second call is not
    a no-op. *)
Lemma two_calls_two_requests :
  let down := NoReply (str "unreachable") in
  let w1 := snd (fetch_user_data_to_json down Sample.cold) in
  let w2 := snd (fetch_user_data_to_json down w1) in
  requests Sample.cold = [] /\
  requests w2 = [(API_URL, 60); (API_URL, 60)] /\
  length (requests w2) <> 1%nat.
Proof.
  intros down w1 w2.
  assert (requests w2 = [(API_URL, 60); (API_URL, 60)]) as E by by_evaluation.
  split_and!; [reflexivity | exact E | by rewrite E].
Qed.

(** C4, as amended. A fetch that succeeds stores the text [json.dump]
    writes for the decoded body: the body is decoded ([response.json()]) and
    encoded again, not copied. *)
Theorem snapshot_is_reencoded `{Platform} status body v w :
  fs w !! USERS_JSON_FILE = None ->
  raise_for_status status = None ->
  parent_error (fs w) USERS_JSON_FILE = None ->
  json_loads body = Ok v ->
  exists w',
    fetch_user_data_to_json (Reply status body) w = (Ok tt, w') /\
    fs w' !! USERS_JSON_FILE = Some (TextFile (json_dumps v)) /\
    forall p, p <> USERS_JSON_FILE -> fs w' !! p = fs w !! p.
Proof.
  intros Hp Hs Hd Hv. eexists. split; [by apply fetch_stored|]. simpl.
  split; [by rewrite lookup_insert_eq|].
  intros p Hne. by rewrite lookup_insert_ne.
Qed.

Lemma snapshot_is_reencoded_witness :
  exists w',
    fetch_user_data_to_json (Reply 200 (str "[1,2]")) Sample.cold = (Ok tt, w') /\
    fs w' !! USERS_JSON_FILE = Some (TextFile (json_dumps (JArr [JInt 1; JInt 2]))) /\
    forall p, p <> USERS_JSON_FILE -> fs w' !! p = fs Sample.cold !! p.
Proof.
  apply (@snapshot_is_reencoded Reference.platform 200 (str "[1,2]")
           (JArr [JInt 1; JInt 2]) Sample.cold); by_evaluation.
Defined.

(** C4, as stated, fails: on the reference platform the body [[1,2]] is
    stored as [[1, 2]]. *)
Lemma snapshot_not_verbatim :
  fetch_user_data_to_json (Reply 200 (str "[1,2]")) Sample.cold
  = (Ok tt, Sample.stored (str "[1, 2]")) /\
  fs (Sample.stored (str "[1, 2]")) !! USERS_JSON_FILE
  = Some (TextFile (str "[1, 2]")) /\
  str "[1, 2]" <> str "[1,2]".
Proof. split_and!; [by_evaluation | by_evaluation | discriminate]. Qed.

(** C5, as amended. On a missing snapshot, a transport failure, and a
    status that [raise_for_status] rejects (a client or a server error, 400
    to 599), end the call with the failure reported, cause included, in a
    level-2 log record, and with the file system as it was: no snapshot is
    written. A file changes only after a response that passed: one whose
    status is outside 400 to 599. *)
Theorem failed_fetch_writes_nothing `{Platform} :
  (forall cause w,
     fs w !! USERS_JSON_FILE = None ->
     fetch_user_data_to_json (NoReply cause) w
     = (Ok tt, World (fs w) (requests w ++ [(API_URL, 60)])
                 (logs w ++ [(2, MsgFetchFailed (TransportError cause))]))) /\
  (forall status body w,
     fs w !! USERS_JSON_FILE = None ->
     400 <= status < 600 ->
     fetch_user_data_to_json (Reply status body) w
     = (Ok tt, World (fs w) (requests w ++ [(API_URL, 60)])
                 (logs w ++ [(2, MsgFetchFailed (HTTPError status))]))) /\
  (forall reply w r w' p,
     fetch_user_data_to_json reply w = (r, w') ->
     fs w' !! p <> fs w !! p ->
     exists status body,
       reply = Reply status body /\ ~ 400 <= status < 600).
Proof.
  split_and!.
  - intros cause w Hp. by apply fetch_caught.
  - intros status body w Hp Hs. apply fetch_caught; [done|].
    unfold caught, raise_for_status.
    by rewrite andb_true_intro by (split; lia).
  - intros reply w r w' p E Hne. apply lookup_ne_fs_ne in Hne.
    pose proof (fetch_writes_only_after_success _ _ _ _ E Hne) as Hc.
    destruct reply as [cause|status body]; [done|].
    exists status, body. split; [done|].
    unfold caught, raise_for_status in Hc.
    destruct (400 <=? status) eqn:E1; destruct (status <? 600) eqn:E2;
      simpl in Hc; try done; lia.
Qed.

Lemma failed_fetch_writes_nothing_witness :
  fetch_user_data_to_json (NoReply (str "timed out")) Sample.cold
  = (Ok tt, World (fs Sample.cold) (requests Sample.cold ++ [(API_URL, 60)])
              (logs Sample.cold
               ++ [(2, MsgFetchFailed (TransportError (str "timed out")))])) /\
  fetch_user_data_to_json (Reply 503 (str "busy")) Sample.cold
  = (Ok tt, World (fs Sample.cold) (requests Sample.cold ++ [(API_URL, 60)])
              (logs Sample.cold ++ [(2, MsgFetchFailed (HTTPError 503))])) /\
  exists status body,
    Reply 200 (str "[]") = Reply status body /\ ~ 400 <= status < 600.
Proof.
  split_and!.
  - apply (proj1 (@failed_fetch_writes_nothing Reference.platform)).
    by_evaluation.
  - apply (proj1 (proj2 (@failed_fetch_writes_nothing Reference.platform)));
      [by_evaluation | lia].
  - apply (proj2 (proj2 (@failed_fetch_writes_nothing Reference.platform))
             (Reply 200 (str "[]")) Sample.cold (Ok tt)
             (Sample.stored (str "[]")) USERS_JSON_FILE).
    + by_evaluation.
    + replace (fs (Sample.stored (str "[]")) !! USERS_JSON_FILE)
        with (Some (TextFile (str "[]"))) by by_evaluation.
      replace (fs Sample.cold !! USERS_JSON_FILE)
        with (@None node) by by_evaluation.
      discriminate.
Defined.

(** C5, as stated, fails for the statuses that are no success and no
    error either: [raise_for_status] lets 304, 300 and 199 pass. On a
    missing snapshot, a response with status 304 and the body [[]] is stored
    as the snapshot and logged as created, with no failure reported; with an
    empty body, as a 304 has it, the call raises [JSONDecodeError] and
    leaves an empty snapshot file. *)
Lemma unsuccessful_status_is_stored :
  raise_for_status 304 = None /\ raise_for_status 300 = None /\
  raise_for_status 199 = None /\
  fs Sample.cold !! USERS_JSON_FILE = None /\
  fetch_user_data_to_json (Reply 304 (str "[]")) Sample.cold
  = (Ok tt, Sample.stored (str "[]")) /\
  fetch_user_data_to_json (Reply 300 (str "[]")) Sample.cold
  = (Ok tt, Sample.stored (str "[]")) /\
  fetch_user_data_to_json (Reply 199 (str "[]")) Sample.cold
  = (Ok tt, Sample.stored (str "[]")) /\
  fs (Sample.stored (str "[]")) !! USERS_JSON_FILE = Some (TextFile (str "[]")) /\
  logs (Sample.stored (str "[]")) = [(1, MsgCreated USERS_JSON_FILE)] /\
  fetch_user_data_to_json (Reply 304 []) Sample.cold
  = (Raise JSONDecodeError,
     World (<[USERS_JSON_FILE := TextFile []]> (fs Sample.cold))
       [(API_URL, 60)] []).
Proof. split_and!; by_evaluation. Qed.

(** ** The export transformer: failures *)

Lemma resolve_cases `{Platform} f above rest e :
  resolve f above rest = Some e -> e = FileNotFoundError \/ e = NotADirectoryError.
Proof.
  revert above; induction rest as [|c rest IH]; intros above; simpl; [done|].
  destruct (node_at f (above ++ [c])) as [[]|]; eauto; intros [= <-]; auto.
Qed.

Lemma parent_error_cases `{Platform} f p e :
  parent_error f p = Some e -> e = FileNotFoundError \/ e = NotADirectoryError.
Proof. apply resolve_cases. Qed.

Lemma write_missing_snapshot `{Platform} now folder w :
  fs w !! USERS_JSON_FILE = None ->
  exists e,
    write_user_data_to_excel now folder w = (Raise e, w) /\
    (e = FileNotFoundError \/ e = NotADirectoryError).
Proof.
  intros Hp. unfold write_user_data_to_excel, bind at 1, read_text.
  rewrite Hp.
  destruct (parent_error (fs w) USERS_JSON_FILE) as [e|] eqn:E; [|eauto].
  exists e. split; [done|]. by apply parent_error_cases in E.
Qed.

Lemma write_undecodable_snapshot `{Platform} now folder w text e :
  fs w !! USERS_JSON_FILE = Some (TextFile text) ->
  json_loads text = Raise e ->
  write_user_data_to_excel now folder w = (Raise e, w).
Proof.
  intros Hp Hl. unfold write_user_data_to_excel, bind, read_text, lift, json_load.
  by rewrite Hp, Hl.
Qed.

(** C6, as amended. The export raises in its read step, and leaves the
    world as it was, so writes no output file: when the snapshot file does
    not exist, with [FileNotFoundError] (or [NotADirectoryError] when
    something on the way to it is no folder); and when [json.load] raises on
    its text, with the exception [json.load] raised, which is
    [JSONDecodeError] for a text it cannot parse. The read step checks
    nothing else: a text that [json.load] accepts is passed on, whatever
    value it decodes to, and the export is what sorting, filling the sheet
    and saving make of that value. *)
Theorem unreadable_snapshot_raises `{Platform} now folder w :
  (fs w !! USERS_JSON_FILE = None ->
   exists e,
     write_user_data_to_excel now folder w = (Raise e, w) /\
     (e = FileNotFoundError \/ e = NotADirectoryError)) /\
  (forall text e,
     fs w !! USERS_JSON_FILE = Some (TextFile text) ->
     json_loads text = Raise e ->
     write_user_data_to_excel now folder w = (Raise e, w)) /\
  (forall text users,
     fs w !! USERS_JSON_FILE = Some (TextFile text) ->
     json_loads text = Ok users ->
     write_user_data_to_excel now folder w
     = match sorted users with
       | Raise e => (Raise e, w)
       | Ok sorted_users =>
           match append_rows [header] sorted_users with
           | Raise e => (Raise e, w)
           | Ok ws =>
               match create (folder ++ [export_name now]) (XlsxFile ws) w with
               | (Ok _, w1) => log 1 (MsgSaved (folder ++ [export_name now])) w1
               | (Raise e, w1) => (Raise e, w1)
               end
           end
       end).
Proof.
  split_and!.
  - apply write_missing_snapshot.
  - intros text e. apply write_undecodable_snapshot.
  - intros text users. apply write_from_snapshot.
Qed.

Lemma unreadable_snapshot_raises_witness :
  (exists e,
     write_user_data_to_excel Sample.noon Sample.files Sample.cold
     = (Raise e, Sample.cold) /\
     (e = FileNotFoundError \/ e = NotADirectoryError)) /\
  write_user_data_to_excel Sample.noon Sample.files (Sample.cached (str "[1,"))
  = (Raise JSONDecodeError, Sample.cached (str "[1,")) /\
  write_user_data_to_excel Sample.noon Sample.files
    (Sample.cached (replicate (N.to_nat 4301) 49%N))
  = (Raise ValueError, Sample.cached (replicate (N.to_nat 4301) 49%N)) /\
  write_user_data_to_excel Sample.noon Sample.files (Sample.cached (str "{}"))
  = match sorted (JObj []) with
    | Raise e => (Raise e, Sample.cached (str "{}"))
    | Ok sorted_users =>
        match append_rows [header] sorted_users with
        | Raise e => (Raise e, Sample.cached (str "{}"))
        | Ok ws =>
            match create (Sample.files ++ [export_name Sample.noon]) (XlsxFile ws)
                    (Sample.cached (str "{}")) with
            | (Ok _, w1) =>
                log 1 (MsgSaved (Sample.files ++ [export_name Sample.noon])) w1
            | (Raise e, w1) => (Raise e, w1)
            end
        end
    end.
Proof.
  split; [|split; [|split]].
  - apply (proj1 (@unreadable_snapshot_raises Reference.platform
                    Sample.noon Sample.files Sample.cold)).
    by_evaluation.
  - apply (proj1 (proj2 (@unreadable_snapshot_raises Reference.platform
                           Sample.noon Sample.files (Sample.cached (str "[1,"))))
             (str "[1,") JSONDecodeError); by_evaluation.
  - apply (proj1 (proj2 (@unreadable_snapshot_raises Reference.platform
                           Sample.noon Sample.files
                           (Sample.cached (replicate (N.to_nat 4301) 49%N))))
             (replicate (N.to_nat 4301) 49%N) ValueError); by_evaluation.
  - apply (proj2 (proj2 (@unreadable_snapshot_raises Reference.platform
                           Sample.noon Sample.files (Sample.cached (str "{}"))))
             (str "{}") (JObj [])); by_evaluation.
Defined.

Lemma empty_object_is_no_user_sequence : ~ user_records (JObj []).
Proof. by intros (l & E & _). Qed.

(** C6, as stated, fails: on the reference platform the snapshot text
    [{}] decodes, but not to a sequence of User records, and the export
    succeeds and writes a spreadsheet that holds the header row alone. *)
Lemma empty_object_snapshot_exports :
  json_loads (str "{}") = Ok (JObj []) /\
  ~ user_records (JObj []) /\
  write_user_data_to_excel Sample.noon Sample.files (Sample.cached (str "{}"))
  = (Ok tt, Sample.exported (Sample.cached (str "{}")) Sample.noon []) /\
  fs (Sample.cached (str "{}")) !! (Sample.files ++ [export_name Sample.noon])
  = None /\
  fs (Sample.exported (Sample.cached (str "{}")) Sample.noon [])
    !! (Sample.files ++ [export_name Sample.noon])
  = Some (XlsxFile [header]).
Proof.
  split_and!; try by_evaluation.
  apply empty_object_is_no_user_sequence.
Qed.



(** ** The run *)



(** ** The export transformer: the table *)

(** C2. A successful export sorts the records of the snapshot, all of
    them, ascending by the pair (last name token, first name token) under
    code-point order, records with the same pair keeping their input order,
    and saves their rows, as the cells store them, in that order below the
    header. On the reference platform, the snapshot Alice Zephyr, Bob Able,
    Carl Able is exported as Able, Bob; Able, Carl; Zephyr, Alice, and two
    records with the key (Able, Carl) come out in the order they went in. *)
Theorem export_sorted_by_name :
  (forall (P : Platform) now folder w w' text users items,
     write_user_data_to_excel now folder w = (Ok tt, w') ->
     fs w !! USERS_JSON_FILE = Some (TextFile text) ->
     json_loads text = Ok users ->
     iterate users = Ok items ->
     exists sorted_users rows,
       sorted users = Ok sorted_users /\
       items ≡ₚ sorted_users /\ ascending sorted_users /\
       stable items sorted_users /\
       rmap export_row sorted_users = Ok rows /\
       fs w' !! (folder ++ [export_name now])
       = Some (XlsxFile (header :: List.map stored_row rows))) /\
  sorted (JArr [Sample.alice; Sample.bob; Sample.carl])
  = Ok [Sample.bob; Sample.carl; Sample.alice] /\
  write_user_data_to_excel Sample.noon Sample.files
    (Sample.snapshot_of [Sample.alice; Sample.bob; Sample.carl])
  = (Ok tt,
     Sample.exported (Sample.snapshot_of [Sample.alice; Sample.bob; Sample.carl])
       Sample.noon [Sample.bob_row; Sample.carl_row; Sample.alice_row]) /\
  List.map (take 2) [Sample.bob_row; Sample.carl_row; Sample.alice_row]
  = [[JStr (str "Able"); JStr (str "Bob")];
     [JStr (str "Able"); JStr (str "Carl")];
     [JStr (str "Zephyr"); JStr (str "Alice")]] /\
  sort_key Sample.carl_senior = sort_key Sample.carl /\
  sorted (JArr [Sample.carl_senior; Sample.alice; Sample.carl; Sample.bob])
  = Ok [Sample.bob; Sample.carl_senior; Sample.carl; Sample.alice] /\
  sorted (JArr [Sample.carl; Sample.alice; Sample.carl_senior; Sample.bob])
  = Ok [Sample.bob; Sample.carl; Sample.carl_senior; Sample.alice].
Proof.
  split_and!; try by_evaluation.
  intros P now folder w w' text users items E Hp Hl Hi.
  apply write_user_data_to_excel_Ok in E
    as (text' & users' & sorted_users & rows & Hp' & Hl' & Hs & Hr & ->).
  assert (users' = users) as -> by congruence.
  destruct (sorted_spec users items sorted_users Hi Hs) as (Hperm & Hasc & Hst).
  exists sorted_users, rows. split_and!; try done.
  cbn [fs]. by rewrite lookup_insert_eq.
Qed.

Lemma export_sorted_by_name_witness :
  exists sorted_users rows,
    sorted (JArr [Sample.alice; Sample.bob; Sample.carl]) = Ok sorted_users /\
    [Sample.alice; Sample.bob; Sample.carl] ≡ₚ sorted_users /\
    ascending sorted_users /\
    stable [Sample.alice; Sample.bob; Sample.carl] sorted_users /\
    rmap export_row sorted_users = Ok rows /\
    fs (Sample.exported (Sample.snapshot_of [Sample.alice; Sample.bob; Sample.carl])
          Sample.noon [Sample.bob_row; Sample.carl_row; Sample.alice_row])
      !! (Sample.files ++ [export_name Sample.noon])
    = Some (XlsxFile (header :: List.map stored_row rows)).
Proof.
  apply (proj1 export_sorted_by_name Reference.platform Sample.noon Sample.files
           (Sample.snapshot_of [Sample.alice; Sample.bob; Sample.carl])
           (Sample.exported (Sample.snapshot_of [Sample.alice; Sample.bob; Sample.carl])
              Sample.noon [Sample.bob_row; Sample.carl_row; Sample.alice_row])
           (Reference.dumps (JArr [Sample.alice; Sample.bob; Sample.carl]))
           (JArr [Sample.alice; Sample.bob; Sample.carl])
           [Sample.alice; Sample.bob; Sample.carl]);
    by_evaluation.
Defined.

(** What a cell stores of a value the sheet accepts. *)
Lemma stored_cell_short v :
  (forall s, v = JStr s -> (length s <= max_cell_length)%nat) -> stored_cell v = v.
Proof.
  destruct v; try done. intros Hs. simpl. f_equal.
  apply take_ge. by apply Hs.
Qed.

Lemma stored_row_short r :
  Forall (fun v => forall s, v = JStr s -> (length s <= max_cell_length)%nat) r ->
  stored_row r = r.
Proof.
  unfold stored_row. induction 1 as [|v r Hv _ IH]; [done|].
  simpl. by rewrite stored_cell_short, IH.
Qed.

Lemma stored_rows_short rows :
  Forall (Forall (fun v => forall s, v = JStr s -> (length s <= max_cell_length)%nat))
    rows ->
  List.map stored_row rows = rows.
Proof.
  induction 1 as [|r rows Hr _ IH]; [done|].
  simpl. by rewrite stored_row_short, IH.
Qed.

Lemma export_row_length u r : is_export_row u r -> length r = 8%nat.
Proof.
  intros (? & ? & ? & ? & ? & ? & ? & ? & ? & ? & Hu).
  by destruct Hu as (_ & _ & _ & _ & _ & _ & _ & _ & _ & _ & ->).
Qed.

(** C3, as amended. A successful export saves a table with the header row
    of the eight labels first, followed by exactly one row for each record
    of the sorted sequence, in order; each row has eight cells, which store
    the 8-tuple (last name token, first name token, email, street, city,
    zipcode, phone, website) of its record: a text of more than 32767
    characters is stored cut to its first 32767, every other value as it
    is. So the rows are the 8-tuples themselves when no text in them is
    longer than 32767 characters. The record of Jane Doe gives the row Doe,
    Jane, j@x.com, 1 Main, Springfield, 00001, 555, x.com. *)
Theorem export_table_shape :
  (forall (P : Platform) now folder w w',
     write_user_data_to_excel now folder w = (Ok tt, w') ->
     exists text users sorted_users rows,
       fs w !! USERS_JSON_FILE = Some (TextFile text) /\
       json_loads text = Ok users /\
       sorted users = Ok sorted_users /\
       fs w' !! (folder ++ [export_name now])
       = Some (XlsxFile (header :: List.map stored_row rows)) /\
       Forall2 is_export_row sorted_users rows /\
       length (List.map stored_row rows) = length sorted_users /\
       Forall (fun r => length r = 8%nat) (header :: List.map stored_row rows) /\
       (Forall (Forall (fun v => forall s, v = JStr s ->
                                   (length s <= max_cell_length)%nat)) rows ->
        List.map stored_row rows = rows)) /\
  (forall r, stored_row r = List.map stored_cell r) /\
  (forall s, stored_cell (JStr s) = JStr (take max_cell_length s)) /\
  (forall v, (forall s, v <> JStr s) -> stored_cell v = v) /\
  max_cell_length = N.to_nat 32767 /\
  header = List.map (fun s => JStr (str s))
             ["last name"; "first name"; "email"; "street"; "city"; "zipcode";
              "phone"; "website"]%string /\
  export_row Sample.jane = Ok Sample.jane_row /\
  Sample.jane_row
  = List.map (fun s => JStr (str s))
      ["Doe"; "Jane"; "j@x.com"; "1 Main"; "Springfield"; "00001"; "555";
       "x.com"]%string /\
  write_user_data_to_excel Sample.noon Sample.files
    (Sample.snapshot_of [Sample.jane])
  = (Ok tt, Sample.exported (Sample.snapshot_of [Sample.jane]) Sample.noon
              [Sample.jane_row]).
Proof.
  split_and!; try by_evaluation; try done.
  - intros P now folder w w' E.
    apply write_user_data_to_excel_Ok in E
      as (text & users & sorted_users & rows & Hp & Hl & Hs & Hr & ->).
    exists text, users, sorted_users, rows.
    apply rmap_Ok_Forall2 in Hr.
    assert (Forall2 is_export_row sorted_users rows) as Hrows.
    { eapply Forall2_impl; [exact Hr|]. intros u r. apply export_row_spec. }
    split_and!; try done.
    + cbn [fs]. by rewrite lookup_insert_eq.
    + rewrite length_map. symmetry. by eapply Forall2_length.
    + constructor; [done|].
      clear -Hrows. induction Hrows as [|u r us rs Hu _ IH]; constructor; [|done].
      unfold stored_row. rewrite length_map. by eapply export_row_length.
    + apply stored_rows_short.
  - intros v Hv. destruct v; try done. by destruct (Hv s).
Qed.

Lemma export_table_shape_witness :
  exists text users sorted_users rows,
    fs (Sample.snapshot_of [Sample.jane]) !! USERS_JSON_FILE = Some (TextFile text) /\
    json_loads text = Ok users /\
    sorted users = Ok sorted_users /\
    fs (Sample.exported (Sample.snapshot_of [Sample.jane]) Sample.noon
          [Sample.jane_row])
      !! (Sample.files ++ [export_name Sample.noon])
    = Some (XlsxFile (header :: List.map stored_row rows)) /\
    Forall2 is_export_row sorted_users rows /\
    length (List.map stored_row rows) = length sorted_users /\
    Forall (fun r => length r = 8%nat) (header :: List.map stored_row rows) /\
    (Forall (Forall (fun v => forall s, v = JStr s ->
                                (length s <= max_cell_length)%nat)) rows ->
     List.map stored_row rows = rows).
Proof.
  apply (proj1 export_table_shape Reference.platform Sample.noon Sample.files
           (Sample.snapshot_of [Sample.jane])
           (Sample.exported (Sample.snapshot_of [Sample.jane]) Sample.noon
              [Sample.jane_row])).
  by_evaluation.
Defined.

(** A record whose email has 32768 characters is exported, and the row
    saved for it is not the 8-tuple of the record: its email cell holds the
    first 32767 characters only. *)
Lemma long_field_is_cut :
  export_row Sample.long_mail = Ok (Sample.long_mail_row Sample.long_email) /\
  is_export_row Sample.long_mail (Sample.long_mail_row Sample.long_email) /\
  write_user_data_to_excel Sample.noon Sample.files
    (Sample.snapshot_of [Sample.long_mail])
  = (Ok tt,
     Sample.exported (Sample.snapshot_of [Sample.long_mail]) Sample.noon
       [Sample.long_mail_row (take (N.to_nat 32767) Sample.long_email)]) /\
  ~ is_export_row Sample.long_mail
      (Sample.long_mail_row (take (N.to_nat 32767) Sample.long_email)) /\
  length Sample.long_email = N.to_nat 32768 /\
  length (take (N.to_nat 32767) Sample.long_email) = N.to_nat 32767.
Proof.
  assert (export_row Sample.long_mail = Ok (Sample.long_mail_row Sample.long_email))
    as Hrow by by_evaluation.
  split_and!;
    [exact Hrow|apply export_row_spec; exact Hrow|by_evaluation|
    |by_evaluation|by_evaluation].
  intros Hcut. apply export_row_spec in Hcut. rewrite Hrow in Hcut.
  apply (f_equal (fun r => match r with
                           | Ok (_ :: _ :: JStr email :: _) => length email
                           | _ => 0%nat
                           end)) in Hcut.
  unfold Sample.long_mail_row in Hcut. cbv beta iota in Hcut. revert Hcut.
  unfold Sample.long_email. rewrite length_take, length_replicate. lia.
Qed.

(** ** Name tokens *)

Lemma str_inj a b : str a = str b -> a = b.
Proof.
  unfold str. intros E.
  rewrite <- (string_of_list_ascii_of_string a), <- (string_of_list_ascii_of_string b).
  f_equal. revert E. generalize (list_ascii_of_string a) (list_ascii_of_string b).
  induction l as [|x l IH]; intros [|y l']; simpl; try done.
  intros [= Hxy Hl]. f_equal; [|by apply IH].
  by rewrite <- (ascii_N_embedding x), <- (ascii_N_embedding y), Hxy.
Qed.

(** Two records with the same members after a leading [name]. *)
Lemma field_after_name n n' rest k :
  k <> "name"%string ->
  field (JObj ((str "name", JStr n') :: rest)) k
  = field (JObj ((str "name", JStr n) :: rest)) k.
Proof.
  intros Hk. unfold field. simpl.
  destruct (decide (str "name" = str k)) as [E|_]; [|done].
  apply str_inj in E. congruence.
Qed.

(** Records that agree on every member but [name], and whose names have
    the same first and the same last token, have the same row and key. *)
Lemma export_row_name_invariant u u' name name' r :
  export_row u = Ok r ->
  field u "name" = Some (JStr name) ->
  field u' "name" = Some (JStr name') ->
  head (split name') = head (split name) ->
  last (split name') = last (split name) ->
  (forall k, k <> "name"%string -> field u' k = field u k) ->
  export_row u' = Ok r /\ sort_key u' = sort_key u.
Proof.
  intros Hr Hn Hn' Hh Hl Hsame.
  apply export_row_spec in Hr
    as (name0 & f & l & email & addr & st & ci & zi & ph & we &
        Hn0 & Hf & Hla & He & Ha & Hst & Hci & Hzi & Hph & Hwe & ->).
  assert (name0 = name) as -> by congruence.
  split.
  - apply export_row_spec.
    exists name', f, l, email, addr, st, ci, zi, ph, we.
    rewrite (Hsame "email"%string), (Hsame "address"%string),
      (Hsame "phone"%string), (Hsame "website"%string) by done.
    split_and!; try done; congruence.
  - assert (sort_key u = Ok (l, f)) as ->
      by (apply sort_key_Ok; exists name; by simpl).
    apply sort_key_Ok. exists name'. simpl. split_and!; congruence.
Qed.

(** C9. For a User record whose name has at least one token, the sort key
    and the export row are computed without an exception: the key is (last
    token, first token) and the row starts with the last and the first
    token, followed by the six other members. The tokens between the first
    and the last play no part: two records that differ only in the middle
    tokens of their names have the same key and the same row. *)
Theorem name_tokens_total :
  (forall u name,
     user_record u ->
     field u "name" = Some (JStr name) ->
     split name <> [] ->
     exists first last_ email address street city zipcode phone website,
       head (split name) = Some first /\
       last (split name) = Some last_ /\
       sort_key u = Ok (last_, first) /\
       field u "email" = Some email /\
       field u "address" = Some address /\
       field address "street" = Some street /\
       field address "city" = Some city /\
       field address "zipcode" = Some zipcode /\
       field u "phone" = Some phone /\
       field u "website" = Some website /\
       export_row u
       = Ok [JStr last_; JStr first; email; street; city; zipcode; phone; website]) /\
  (forall u u' first last_ middle middle',
     user_record u ->
     token first -> token last_ -> Forall token middle -> Forall token middle' ->
     field u "name" = Some (JStr (unwords (first :: middle ++ [last_]))) ->
     field u' "name" = Some (JStr (unwords (first :: middle' ++ [last_]))) ->
     (forall k, k <> "name"%string -> field u' k = field u k) ->
     sort_key u = Ok (last_, first) /\ sort_key u' = Ok (last_, first) /\
     exists rest,
       export_row u = Ok (JStr last_ :: JStr first :: rest) /\
       export_row u' = Ok (JStr last_ :: JStr first :: rest)).
Proof.
  assert (forall u name, user_record u -> field u "name" = Some (JStr name) ->
            split name <> [] ->
            exists first last_ email address street city zipcode phone website,
              head (split name) = Some first /\
              last (split name) = Some last_ /\
              sort_key u = Ok (last_, first) /\
              field u "email" = Some email /\
              field u "address" = Some address /\
              field address "street" = Some street /\
              field address "city" = Some city /\
              field address "zipcode" = Some zipcode /\
              field u "phone" = Some phone /\
              field u "website" = Some website /\
              export_row u
              = Ok [JStr last_; JStr first; email; street; city; zipcode;
                    phone; website]) as Htotal.
  { intros u name (name0 & addr & Hn0 & [email He] & [phone Hph] & [website Hwe] &
                   Ha & [street Hst] & [city Hci] & [zipcode Hzi]) Hn Hne.
    destruct (split name) as [|first toks] eqn:Hsplit; [done|].
    destruct (last (first :: toks)) as [last_|] eqn:Hlast;
      [|by apply last_None in Hlast].
    exists first, last_, email, addr, street, city, zipcode, phone, website.
    split_and!; try done.
    - apply sort_key_Ok. exists name. rewrite Hsplit. by simpl.
    - apply export_row_spec.
      exists name, first, last_, email, addr, street, city, zipcode, phone, website.
      rewrite Hsplit. by split_and!. }
  split; [exact Htotal|].
  intros u u' first last_ middle middle' Hu Hf Hl Hm Hm' Hn Hn' Hsame.
  assert (split (unwords (first :: middle ++ [last_])) = first :: middle ++ [last_])
    as Hs.
  { apply split_unwords. constructor; [done|].
    apply Forall_app; split; [done | by constructor]. }
  assert (split (unwords (first :: middle' ++ [last_])) = first :: middle' ++ [last_])
    as Hs'.
  { apply split_unwords. constructor; [done|].
    apply Forall_app; split; [done | by constructor]. }
  destruct (Htotal u _ Hu Hn) as
    (f & l & email & addr & st & ci & zi & ph & we & Hh & Hla & Hk & _ & _ & _ &
     _ & _ & _ & _ & Hr); [by rewrite Hs|].
  rewrite Hs in Hh, Hla. simpl in Hh. injection Hh as <-.
  rewrite app_comm_cons, last_snoc in Hla. injection Hla as <-.
  destruct (export_row_name_invariant u u' _ _ _ Hr Hn Hn') as [Hr' Hk']; try done.
  - by rewrite Hs, Hs'.
  - by rewrite Hs, Hs', !app_comm_cons, !last_snoc.
  - split_and!; [done | congruence | eauto].
Qed.

Lemma name_tokens_total_witness :
  (exists first last_ email address street city zipcode phone website,
     head (split (str "Jane Doe")) = Some first /\
     last (split (str "Jane Doe")) = Some last_ /\
     sort_key Sample.jane = Ok (last_, first) /\
     field Sample.jane "email" = Some email /\
     field Sample.jane "address" = Some address /\
     field address "street" = Some street /\
     field address "city" = Some city /\
     field address "zipcode" = Some zipcode /\
     field Sample.jane "phone" = Some phone /\
     field Sample.jane "website" = Some website /\
     export_row Sample.jane
     = Ok [JStr last_; JStr first; email; street; city; zipcode; phone; website]) /\
  (sort_key (Sample.dan_doe "A.") = Ok (str "Doe", str "Dan") /\
   sort_key (Sample.dan_doe "B. C.") = Ok (str "Doe", str "Dan") /\
   exists rest,
     export_row (Sample.dan_doe "A.") = Ok (JStr (str "Doe") :: JStr (str "Dan") :: rest) /\
     export_row (Sample.dan_doe "B. C.")
     = Ok (JStr (str "Doe") :: JStr (str "Dan") :: rest)).
Proof.
  split.
  - apply (proj1 name_tokens_total Sample.jane (str "Jane Doe")).
    + exists (str "Jane Doe"), (Sample.address "1 Main" "Springfield" "00001").
      split_and!; try by_evaluation; eexists; reflexivity.
    + by_evaluation.
    + replace (split (str "Jane Doe")) with [str "Jane"; str "Doe"] by by_evaluation.
      discriminate.
  - apply (proj2 name_tokens_total (Sample.dan_doe "A.") (Sample.dan_doe "B. C.")
             (str "Dan") (str "Doe") [str "A."] [str "B."; str "C."]).
    + exists (str "Dan A. Doe"), (Sample.address "6 F St" "Fville" "6").
      split_and!; try by_evaluation; eexists; reflexivity.
    + apply is_token_token. by_evaluation.
    + apply is_token_token. by_evaluation.
    + repeat constructor; apply is_token_token; by_evaluation.
    + repeat constructor; apply is_token_token; by_evaluation.
    + by_evaluation.
    + by_evaluation.
    + apply field_after_name.
Defined.

(** ** Time stamps *)

Lemma digits_length w n : length (digits w n) = w.
Proof. induction w as [|w IH]; simpl; [done|]. by rewrite IH. Qed.

Lemma digit_decimal d : 0 <= d <= 9 -> is_decimal_digit (digit d).
Proof. unfold is_decimal_digit, digit. lia. Qed.

Lemma digits_decimal w n : Forall is_decimal_digit (digits w n).
Proof.
  induction w as [|w IH]; simpl; constructor; [|done].
  apply digit_decimal. pose proof (Z.mod_pos_bound (n / 10 ^ Z.of_nat w) 10). lia.
Qed.

Lemma mod_pow10_succ n (w : nat) :
  n mod 10 ^ Z.of_nat (S w)
  = (n / 10 ^ Z.of_nat w) mod 10 * 10 ^ Z.of_nat w + n mod 10 ^ Z.of_nat w.
Proof.
  rewrite Nat2Z.inj_succ, Z.pow_succ_r by lia.
  rewrite (Z.mul_comm 10), Z.rem_mul_r by lia. lia.
Qed.

Lemma digits_value_from w n acc :
  fold_left (fun a c => 10 * a + (Z.of_N c - 48)) (digits w n) acc
  = acc * 10 ^ Z.of_nat w + n mod 10 ^ Z.of_nat w.
Proof.
  revert acc; induction w as [|w IH]; intros acc.
  - simpl. rewrite Z.mod_1_r. lia.
  - cbn [digits fold_left]. rewrite IH, mod_pow10_succ.
    rewrite Nat2Z.inj_succ, Z.pow_succ_r by lia.
    pose proof (Z.mod_pos_bound (n / 10 ^ Z.of_nat w) 10).
    unfold digit. rewrite Z2N.id by lia. lia.
Qed.

(** [digits w n] reads as [n]: it is [n] in decimal, padded with zeros. *)
Lemma digits_value (w : nat) n :
  0 <= n < 10 ^ Z.of_nat w -> decimal_value (digits w n) = n.
Proof.
  intros Hn. unfold decimal_value. rewrite digits_value_from.
  rewrite Z.mod_small by done. lia.
Qed.

Lemma str_compare_app a b s t :
  length a = length b ->
  str_compare (a ++ s) (b ++ t) = then_compare (str_compare a b) (str_compare s t).
Proof.
  revert b; induction a as [|x a IH]; intros [|y b] Hlen; simpl in *; try done.
  destruct (x ?= y)%N; try done. apply IH. lia.
Qed.

Lemma digit_compare a b :
  0 <= a <= 9 -> 0 <= b <= 9 -> (digit a ?= digit b)%N = (a ?= b).
Proof.
  intros Ha Hb. unfold digit.
  destruct (Z.compare_spec a b) as [->|Hlt|Hgt].
  - apply N.compare_refl.
  - apply N.compare_lt_iff. lia.
  - apply N.compare_gt_iff. lia.
Qed.

(** On numbers of at most [w] digits, the order of the padded strings is
    the order of the numbers. *)
Lemma digits_compare (w : nat) a b :
  0 <= a < 10 ^ Z.of_nat w -> 0 <= b < 10 ^ Z.of_nat w ->
  str_compare (digits w a) (digits w b) = (a ?= b).
Proof.
  assert (forall a b, 0 <= a -> 0 <= b ->
            str_compare (digits w a) (digits w b)
            = (a mod 10 ^ Z.of_nat w ?= b mod 10 ^ Z.of_nat w)) as Hmod.
  { induction w as [|w IH]; intros x y Hx Hy.
    - simpl. by rewrite !Z.mod_1_r.
    - cbn [digits str_compare]. rewrite !mod_pow10_succ.
      pose proof (Z.mod_pos_bound (x / 10 ^ Z.of_nat w) 10).
      pose proof (Z.mod_pos_bound (y / 10 ^ Z.of_nat w) 10).
      pose proof (Z.mod_pos_bound x (10 ^ Z.of_nat w)).
      pose proof (Z.mod_pos_bound y (10 ^ Z.of_nat w)).
      assert (0 < 10 ^ Z.of_nat w) by (apply Z.pow_pos_nonneg; lia).
      rewrite digit_compare by lia. rewrite IH by done.
      destruct (Z.compare_spec ((x / 10 ^ Z.of_nat w) mod 10)
                  ((y / 10 ^ Z.of_nat w) mod 10)) as [E|Hlt|Hgt].
      + rewrite E. symmetry. apply Z.add_compare_mono_l.
      + symmetry. apply Z.compare_lt_iff. nia.
      + symmetry. apply Z.compare_gt_iff. nia. }
  intros Ha Hb. rewrite Hmod by lia. by rewrite !Z.mod_small.
Qed.

(** The calendar *)

Lemma days_before_year_mono a b : a <= b -> days_before_year a <= days_before_year b.
Proof. unfold days_before_year. intros. Z.div_mod_to_equations. lia. Qed.

Lemma days_before_year_succ y :
  days_before_year (y + 1) = days_before_year y + (if is_leap y then 366 else 365).
Proof.
  unfold days_before_year, is_leap.
  replace (y + 1 - 1) with y by lia.
  destruct (y mod 4 =? 0) eqn:E4; destruct (y mod 100 =? 0) eqn:E100;
    destruct (y mod 400 =? 0) eqn:E400; simpl;
    rewrite ?Z.eqb_eq, ?Z.eqb_neq in *; Z.div_mod_to_equations; lia.
Qed.

Lemma day_of_year_bound y m d :
  1 <= m <= 12 -> 1 <= d <= days_in_month y m ->
  1 <= days_before_month y m + d <= (if is_leap y then 366 else 365).
Proof.
  intros Hm Hd.
  assert (m = 1 \/ m = 2 \/ m = 3 \/ m = 4 \/ m = 5 \/ m = 6 \/ m = 7 \/ m = 8 \/
          m = 9 \/ m = 10 \/ m = 11 \/ m = 12) as Hcases by lia.
  unfold days_before_month, days_in_month in *.
  destruct (is_leap y);
    repeat (destruct Hcases as [->|Hcases]); subst; simpl in *; lia.
Qed.

Lemma days_before_month_next y m1 m2 d :
  1 <= m1 -> m1 < m2 -> m2 <= 12 -> d <= days_in_month y m1 ->
  days_before_month y m1 + d <= days_before_month y m2.
Proof.
  intros H1 H12 H2 Hd.
  assert (m1 = 1 \/ m1 = 2 \/ m1 = 3 \/ m1 = 4 \/ m1 = 5 \/ m1 = 6 \/ m1 = 7 \/
          m1 = 8 \/ m1 = 9 \/ m1 = 10 \/ m1 = 11) as Hc1 by lia.
  assert (m2 = 2 \/ m2 = 3 \/ m2 = 4 \/ m2 = 5 \/ m2 = 6 \/ m2 = 7 \/ m2 = 8 \/
          m2 = 9 \/ m2 = 10 \/ m2 = 11 \/ m2 = 12) as Hc2 by lia.
  unfold days_before_month, days_in_month in *.
  destruct (is_leap y);
    repeat (destruct Hc1 as [->|Hc1]); subst;
    repeat (destruct Hc2 as [->|Hc2]); subst; simpl in *; lia.
Qed.

(** An earlier date has a smaller ordinal. *)
Lemma ymd2ord_lt y1 m1 d1 y2 m2 d2 :
  1 <= m1 <= 12 -> 1 <= d1 <= days_in_month y1 m1 ->
  1 <= m2 <= 12 -> 1 <= d2 <= days_in_month y2 m2 ->
  y1 < y2 \/ (y1 = y2 /\ (m1 < m2 \/ (m1 = m2 /\ d1 < d2))) ->
  ymd2ord y1 m1 d1 < ymd2ord y2 m2 d2.
Proof.
  intros Hm1 Hd1 Hm2 Hd2 Hlt. unfold ymd2ord.
  pose proof (day_of_year_bound y1 m1 d1 Hm1 Hd1) as B1.
  pose proof (day_of_year_bound y2 m2 d2 Hm2 Hd2) as B2.
  destruct Hlt as [Hy|[-> [Hm|[-> Hd]]]].
  - pose proof (days_before_year_succ y1) as Hs.
    pose proof (days_before_year_mono (y1 + 1) y2 ltac:(lia)). lia.
  - pose proof (days_before_month_next y2 m1 m2 d1 ltac:(lia) Hm ltac:(lia)
                  ltac:(lia)). lia.
  - lia.
Qed.

(** The fields the stamp prints, compared as a tuple, decide which moment
    comes first. *)
Lemma clock_compare_seconds a b :
  valid_datetime a -> valid_datetime b ->
  match clock_compare a b with
  | Lt => to_seconds a < to_seconds b
  | Eq => to_seconds a = to_seconds b
  | Gt => to_seconds b < to_seconds a
  end.
Proof.
  intros (Hy1 & Hm1 & Hd1 & HH1 & HM1 & HS1 & _)
         (Hy2 & Hm2 & Hd2 & HH2 & HM2 & HS2 & _).
  unfold clock_compare, to_seconds.
  destruct (Z.compare_spec (year a) (year b)) as [Ey|Hy|Hy]; simpl.
  2: { pose proof (ymd2ord_lt _ _ _ _ _ _ Hm1 Hd1 Hm2 Hd2 (or_introl Hy)). lia. }
  2: { pose proof (ymd2ord_lt _ _ _ _ _ _ Hm2 Hd2 Hm1 Hd1 (or_introl Hy)). lia. }
  destruct (Z.compare_spec (month a) (month b)) as [Em|Hm|Hm]; simpl.
  2: { pose proof (ymd2ord_lt _ _ _ _ _ _ Hm1 Hd1 Hm2 Hd2
                     (or_intror (conj Ey (or_introl Hm)))). lia. }
  2: { pose proof (ymd2ord_lt _ _ _ _ _ _ Hm2 Hd2 Hm1 Hd1
                     (or_intror (conj (eq_sym Ey) (or_introl Hm)))). lia. }
  destruct (Z.compare_spec (day a) (day b)) as [Ed|Hd|Hd]; simpl.
  2: { pose proof (ymd2ord_lt _ _ _ _ _ _ Hm1 Hd1 Hm2 Hd2
                     (or_intror (conj Ey (or_intror (conj Em Hd))))). lia. }
  2: { pose proof (ymd2ord_lt _ _ _ _ _ _ Hm2 Hd2 Hm1 Hd1
                     (or_intror (conj (eq_sym Ey)
                                   (or_intror (conj (eq_sym Em) Hd))))). lia. }
  rewrite Ey, Em, Ed.
  destruct (Z.compare_spec (hour a) (hour b)) as [EH|HH|HH]; simpl; [|lia|lia].
  destruct (Z.compare_spec (minute a) (minute b)) as [EM|HM|HM]; simpl; [|lia|lia].
  destruct (Z.compare_spec (second a) (second b)) as [ES|HS|HS]; simpl; lia.
Qed.

(** [%Y]: the year on as many digits as it has *)

Lemma width_from_small fuel n : n < 10 -> width_from fuel n = 1%nat.
Proof.
  intros Hn. destruct fuel; simpl; [done|].
  by rewrite (proj2 (Z.ltb_lt _ _) Hn).
Qed.

Lemma width_from_large fuel n :
  10 <= n -> width_from (S fuel) n = S (width_from fuel (n / 10)).
Proof. intros Hn. simpl. by rewrite (proj2 (Z.ltb_ge _ _) Hn). Qed.

Lemma decimal_year y :
  1 <= y <= 9999 ->
  exists w : nat,
    decimal y = digits w y /\ 0 <= y < 10 ^ Z.of_nat w /\
    (1 <= w <= 4)%nat /\ (1000 <= y <-> w = 4%nat).
Proof.
  intros Hy. unfold decimal.
  destruct (Z.lt_ge_cases y 10) as [H10|H10].
  { exists 1%nat. rewrite width_from_small by done.
    change (10 ^ Z.of_nat 1) with 10. split_and!; try done; lia. }
  assert (3 <= Z.log2 y) as Hlog
    by (change 3 with (Z.log2 8); apply Z.log2_le_mono; lia).
  destruct (Z.to_nat (Z.log2 y)) as [|[|[|fuel]]] eqn:Ef; try lia.
  rewrite width_from_large by done.
  destruct (Z.lt_ge_cases y 100) as [H100|H100].
  { exists 2%nat. rewrite width_from_small by (Z.div_mod_to_equations; lia).
    change (10 ^ Z.of_nat 2) with 100. split_and!; try done; lia. }
  rewrite width_from_large by (Z.div_mod_to_equations; lia).
  destruct (Z.lt_ge_cases y 1000) as [H1000|H1000].
  { exists 3%nat. rewrite width_from_small by (Z.div_mod_to_equations; lia).
    change (10 ^ Z.of_nat 3) with 1000. split_and!; try done; lia. }
  rewrite width_from_large by (Z.div_mod_to_equations; lia).
  exists 4%nat. rewrite width_from_small by (Z.div_mod_to_equations; lia).
  change (10 ^ Z.of_nat 4) with 10000. split_and!; try done; lia.
Qed.

Lemma decimal_four y : 1000 <= y <= 9999 -> decimal y = digits 4 y.
Proof.
  intros Hy. destruct (decimal_year y) as (w & -> & _ & _ & Hw); [lia|].
  by rewrite (proj1 Hw) by lia.
Qed.

Lemma digits_inj (w : nat) a b :
  0 <= a < 10 ^ Z.of_nat w -> 0 <= b < 10 ^ Z.of_nat w ->
  digits w a = digits w b -> a = b.
Proof.
  intros Ha Hb E.
  by rewrite <- (digits_value w a Ha), <- (digits_value w b Hb), E.
Qed.

(** The first and the second reading of a clock *)

Lemma days_in_month_le_31 y m : days_in_month y m <= 31.
Proof.
  unfold days_in_month.
  destruct (is_leap y); repeat case_match; lia.
Qed.

(** Two stamps are equal only when the fields they print are. *)
Lemma strftime_fields a b :
  valid_datetime a -> valid_datetime b ->
  strftime_YmdHMS a = strftime_YmdHMS b ->
  year a = year b /\ month a = month b /\ day a = day b /\
  hour a = hour b /\ minute a = minute b /\ second a = second b.
Proof.
  intros (Hy1 & Hm1 & Hd1 & HH1 & HM1 & HS1 & _)
         (Hy2 & Hm2 & Hd2 & HH2 & HM2 & HS2 & _) E.
  pose proof (days_in_month_le_31 (year a) (month a)).
  pose proof (days_in_month_le_31 (year b) (month b)).
  destruct (decimal_year (year a) Hy1) as (w1 & D1 & B1 & _).
  destruct (decimal_year (year b) Hy2) as (w2 & D2 & B2 & _).
  unfold strftime_YmdHMS in E. rewrite D1, D2 in E.
  assert (w1 = w2) as ->.
  { apply (f_equal length) in E.
    rewrite !length_app, !digits_length in E. lia. }
  apply app_inj_1 in E as [Ey E]; [|by rewrite !digits_length].
  apply app_inj_1 in E as [Em E]; [|by rewrite !digits_length].
  apply app_inj_1 in E as [Ed E]; [|by rewrite !digits_length].
  apply app_inj_1 in E as [EH E]; [|by rewrite !digits_length].
  apply app_inj_1 in E as [EM ES]; [|by rewrite !digits_length].
  change (10 ^ Z.of_nat 4) with 10000 in *.
  split_and!; eapply digits_inj; try eassumption;
    change (10 ^ Z.of_nat 2) with 100; lia.
Qed.

(** From the year 1000 on, the stamps of two moments compare as their
    fields do. *)
Lemma strftime_compare a b :
  valid_datetime a -> valid_datetime b ->
  1000 <= year a -> 1000 <= year b ->
  str_compare (strftime_YmdHMS a) (strftime_YmdHMS b) = clock_compare a b.
Proof.
  intros (Hy1 & Hm1 & Hd1 & HH1 & HM1 & HS1 & _)
         (Hy2 & Hm2 & Hd2 & HH2 & HM2 & HS2 & _) Ha Hb.
  pose proof (days_in_month_le_31 (year a) (month a)).
  pose proof (days_in_month_le_31 (year b) (month b)).
  unfold strftime_YmdHMS, clock_compare.
  rewrite !decimal_four by lia.
  rewrite !str_compare_app by (by rewrite !digits_length).
  change (10 ^ Z.of_nat 4) with 10000 in *.
  rewrite !digits_compare by (simpl; lia).
  done.
Qed.

Lemma strftime_length now :
  valid_datetime now ->
  exists w : nat,
    length (strftime_YmdHMS now) = (w + 10)%nat /\ (1 <= w <= 4)%nat /\
    (1000 <= year now <-> w = 4%nat).
Proof.
  intros (Hy & _).
  destruct (decimal_year (year now) Hy) as (w & D & _ & Hw & Hw4).
  exists w. unfold strftime_YmdHMS.
  rewrite D, !length_app, !digits_length. split_and!; try done; lia.
Qed.

Lemma export_name_compare a b :
  valid_datetime a -> valid_datetime b ->
  1000 <= year a -> 1000 <= year b ->
  str_compare (export_name a) (export_name b)
  = clock_compare a b.
Proof.
  intros Ha Hb Hya Hyb. unfold export_name.
  rewrite str_compare_app by done. rewrite str_compare_refl.
  cbn [then_compare].
  destruct (strftime_length a Ha) as (wa & La & _ & Wa).
  destruct (strftime_length b Hb) as (wb & Lb & _ & Wb).
  rewrite str_compare_app by (rewrite La, Lb; lia).
  rewrite str_compare_refl, strftime_compare by done.
  by destruct (clock_compare a b).
Qed.

Lemma clock_compare_Lt_year a b : clock_compare a b = Lt -> year a <= year b.
Proof.
  unfold clock_compare.
  destruct (Z.compare_spec (year a) (year b)); simpl; try done; lia.
Qed.

(** From the year 1000 on, the later of two clock readings in different
    seconds has the larger name. *)
Lemma export_name_lt d1 d2 :
  valid_datetime d1 -> valid_datetime d2 ->
  1000 <= year d1 ->
  to_seconds d1 < to_seconds d2 ->
  str_lt (export_name d1) (export_name d2) = true.
Proof.
  intros H1 H2 Hy Hlt.
  pose proof (clock_compare_seconds d1 d2 H1 H2) as Hc.
  destruct (clock_compare d1 d2) eqn:E; try lia.
  apply clock_compare_Lt_year in E as Hy2.
  unfold str_lt. rewrite export_name_compare by (done || lia). by rewrite E.
Qed.

Lemma seconds_apart d1 d2 :
  valid_datetime d1 -> valid_datetime d2 ->
  to_microseconds d1 + 1000000 <= to_microseconds d2 ->
  to_seconds d1 < to_seconds d2.
Proof.
  intros (_ & _ & _ & _ & _ & _ & Hu1) (_ & _ & _ & _ & _ & _ & Hu2).
  unfold to_microseconds. lia.
Qed.

(** C7, as amended. The file an export saves is named [employees_], then
    the stamp of the reading of the local clock at the export, then
    [.xlsx]. The stamp consists of decimal digits: the year, without
    padding, then month, day, hour, minute and second on two digits each,
    padded with zeros, nothing between them; from the year 1000 on these
    are fourteen digits, with the year on four. A successful export saves
    its table under that name in the folder it was given, and nowhere else:
    the export of 2024-03-09 12:00:00 creates the file
    [employees_20240309120000.xlsx]. Of two readings of the clock at least
    one second apart, the first in the year 1000 or later, the earlier one
    has the name that is smaller in code-point order; so have two moments at
    least one second apart when the clock is at the same offset from UTC at
    both. *)
Theorem export_name_format :
  (forall now,
     valid_datetime now ->
     export_name now = str "employees_" ++ strftime_YmdHMS now ++ str ".xlsx" /\
     Forall is_decimal_digit (strftime_YmdHMS now) /\
     exists Y m d H M S,
       strftime_YmdHMS now = Y ++ m ++ d ++ H ++ M ++ S /\
       List.map (@length N) [m; d; H; M; S] = [2; 2; 2; 2; 2]%nat /\
       List.map decimal_value [Y; m; d; H; M; S]
       = [year now; month now; day now; hour now; minute now; second now] /\
       (1 <= length Y <= 4)%nat /\
       (1000 <= year now <-> length Y = 4%nat) /\
       (1000 <= year now <-> length (strftime_YmdHMS now) = 14%nat)) /\
  (forall (P : Platform) now folder w w',
     write_user_data_to_excel now folder w = (Ok tt, w') ->
     exists rows,
       fs w'
       = <[folder ++ [str "employees_" ++ strftime_YmdHMS now ++ str ".xlsx"]
           := XlsxFile (header :: rows)]> (fs w) /\
       logs w'
       = logs w ++
         [(1, MsgSaved
                (folder ++ [str "employees_" ++ strftime_YmdHMS now ++ str ".xlsx"]))]) /\
  (forall d1 d2,
     valid_datetime d1 -> valid_datetime d2 ->
     1000 <= year d1 ->
     to_microseconds d1 + 1000000 <= to_microseconds d2 ->
     str_lt (export_name d1) (export_name d2) = true) /\
  (forall utc_offset d1 d2,
     valid_datetime d1 -> valid_datetime d2 ->
     1000 <= year d1 ->
     instant utc_offset d1 + 1000000 <= instant utc_offset d2 ->
     str_lt (export_name d1) (export_name d2) = true) /\
  export_name Sample.noon = str "employees_20240309120000.xlsx" /\
  fs (Sample.snapshot_of [Sample.jane])
    !! (Sample.files ++ [str "employees_20240309120000.xlsx"]) = None /\
  write_user_data_to_excel Sample.noon Sample.files
    (Sample.snapshot_of [Sample.jane])
  = (Ok tt,
     World (<[Sample.files ++ [str "employees_20240309120000.xlsx"]
              := XlsxFile [header; Sample.jane_row]]>
              (fs (Sample.snapshot_of [Sample.jane])))
       []
       [(1, MsgSaved (Sample.files ++ [str "employees_20240309120000.xlsx"]))]).
Proof.
  split_and!; [| | | |by_evaluation..].
  - intros now Hnow.
    destruct (strftime_length now Hnow) as (w' & Hlen & _ & Hw').
    destruct Hnow as (Hy & Hm & Hd & HH & HM & HS & _).
    pose proof (days_in_month_le_31 (year now) (month now)).
    destruct (decimal_year (year now) Hy) as (w & D & B & Hw & Hw4).
    assert (w' = w) as ->.
    { revert Hlen. unfold strftime_YmdHMS.
      rewrite D, !length_app, !digits_length. lia. }
    split_and!.
    + done.
    + unfold strftime_YmdHMS. rewrite D, !Forall_app.
      split_and!; apply digits_decimal.
    + exists (digits w (year now)), (digits 2 (month now)), (digits 2 (day now)),
        (digits 2 (hour now)), (digits 2 (minute now)), (digits 2 (second now)).
      rewrite digits_length.
      split_and!; try (rewrite ?Hlen; lia); try done.
      * unfold strftime_YmdHMS. by rewrite D.
      * cbn [List.map].
        rewrite (digits_value w) by done.
        rewrite !(digits_value 2) by (change (10 ^ Z.of_nat 2) with 100; lia).
        done.
  - intros P now folder w w' E.
    apply write_user_data_to_excel_Ok in E
      as (text & users & sorted_users & rows & _ & _ & _ & _ & ->).
    by exists (List.map stored_row rows).
  - intros d1 d2 H1 H2 Hy Hapart.
    apply export_name_lt; try done. by apply seconds_apart.
  - intros utc_offset d1 d2 H1 H2 Hy Hapart.
    apply export_name_lt; try done. apply seconds_apart; try done.
    unfold instant in Hapart. lia.
Qed.

Lemma sample_moments_valid :
  valid_datetime Sample.noon /\ valid_datetime Sample.one_second_later /\
  valid_datetime Sample.new_year_eve /\ valid_datetime Sample.new_year.
Proof. unfold valid_datetime. cbn. lia. Qed.

Lemma export_name_format_witness :
  (export_name Sample.noon
   = str "employees_" ++ strftime_YmdHMS Sample.noon ++ str ".xlsx" /\
   Forall is_decimal_digit (strftime_YmdHMS Sample.noon) /\
   exists Y m d H M S,
     strftime_YmdHMS Sample.noon = Y ++ m ++ d ++ H ++ M ++ S /\
     List.map (@length N) [m; d; H; M; S] = [2; 2; 2; 2; 2]%nat /\
     List.map decimal_value [Y; m; d; H; M; S]
     = [year Sample.noon; month Sample.noon; day Sample.noon; hour Sample.noon;
        minute Sample.noon; second Sample.noon] /\
     (1 <= length Y <= 4)%nat /\
     (1000 <= year Sample.noon <-> length Y = 4%nat) /\
     (1000 <= year Sample.noon <-> length (strftime_YmdHMS Sample.noon) = 14%nat)) /\
  (exists rows,
     fs (Sample.exported (Sample.snapshot_of [Sample.jane]) Sample.noon
           [Sample.jane_row])
     = <[Sample.files ++
         [str "employees_" ++ strftime_YmdHMS Sample.noon ++ str ".xlsx"]
         := XlsxFile (header :: rows)]> (fs (Sample.snapshot_of [Sample.jane])) /\
     logs (Sample.exported (Sample.snapshot_of [Sample.jane]) Sample.noon
             [Sample.jane_row])
     = logs (Sample.snapshot_of [Sample.jane]) ++
       [(1, MsgSaved
              (Sample.files ++
               [str "employees_" ++ strftime_YmdHMS Sample.noon ++ str ".xlsx"]))]) /\
  str_lt (export_name Sample.noon) (export_name Sample.one_second_later) = true /\
  str_lt (export_name Sample.new_year_eve) (export_name Sample.new_year) = true.
Proof.
  destruct sample_moments_valid as (V1 & V2 & V3 & V4).
  split; [|split; [|split]].
  - apply (proj1 export_name_format Sample.noon V1).
  - apply (proj1 (proj2 export_name_format) Reference.platform Sample.noon
             Sample.files (Sample.snapshot_of [Sample.jane])).
    by_evaluation.
  - apply (proj1 (proj2 (proj2 export_name_format)) _ _ V1 V2).
    + apply Z.leb_le. by_evaluation.
    + apply Z.leb_le. by_evaluation.
  - apply (proj1 (proj2 (proj2 (proj2 export_name_format))) 7200 _ _ V3 V4).
    + apply Z.leb_le. by_evaluation.
    + apply Z.leb_le. by_evaluation.
Defined.

(** The name is not always fourteen digits long, and names do not always
    sort as the exports happened. The last second of the year 999 is
    stamped with thirteen digits, and its name is larger than the name of
    the second after it. And where the clock is set back an hour on
    2024-10-27 at 04:00, an export at 03:30 before the change (three hours
    ahead of UTC) happens half an hour before an export at 03:00 after it
    (two hours ahead), and has the larger name. *)
Lemma export_names_out_of_order :
  (valid_datetime (Datetime 999 12 31 23 59 59 0) /\
   valid_datetime (Datetime 1000 1 1 0 0 0 0) /\
   strftime_YmdHMS (Datetime 999 12 31 23 59 59 0) = str "9991231235959" /\
   length (strftime_YmdHMS (Datetime 999 12 31 23 59 59 0)) = 13%nat /\
   export_name (Datetime 999 12 31 23 59 59 0) = str "employees_9991231235959.xlsx" /\
   to_microseconds (Datetime 999 12 31 23 59 59 0) + 1000000
   = to_microseconds (Datetime 1000 1 1 0 0 0 0) /\
   str_lt (export_name (Datetime 999 12 31 23 59 59 0))
     (export_name (Datetime 1000 1 1 0 0 0 0)) = false /\
   str_lt (export_name (Datetime 1000 1 1 0 0 0 0))
     (export_name (Datetime 999 12 31 23 59 59 0)) = true) /\
  (valid_datetime (Datetime 2024 10 27 3 30 0 0) /\
   valid_datetime (Datetime 2024 10 27 3 0 0 0) /\
   instant 10800 (Datetime 2024 10 27 3 30 0 0) + 1800 * 1000000
   = instant 7200 (Datetime 2024 10 27 3 0 0 0) /\
   export_name (Datetime 2024 10 27 3 30 0 0) = str "employees_20241027033000.xlsx" /\
   export_name (Datetime 2024 10 27 3 0 0 0) = str "employees_20241027030000.xlsx" /\
   str_lt (export_name (Datetime 2024 10 27 3 30 0 0))
     (export_name (Datetime 2024 10 27 3 0 0 0)) = false /\
   str_lt (export_name (Datetime 2024 10 27 3 0 0 0))
     (export_name (Datetime 2024 10 27 3 30 0 0)) = true).
Proof.
  split; split_and!; try by_evaluation; unfold valid_datetime; cbn; lia.
Qed.

(** * Further properties of the program *)

(** ** The cache loader, case by case *)

Lemma parent_users_json_file `{Platform} : parent USERS_JSON_FILE = DATA_FOLDER.
Proof. unfold parent, USERS_JSON_FILE. apply removelast_last. Qed.

(** The folders on the way to the script resolve. *)
Lemma resolve_ambient `{Platform} (f : gmap path node) above rest tail :
  (above ++ rest) `prefix_of` script_dir ->
  resolve f above (rest ++ tail) = resolve f (above ++ rest) tail.
Proof.
  revert above; induction rest as [|c rest IH]; intros above Hpre.
  - by rewrite app_nil_r.
  - cbn [resolve app]. unfold node_at, ambient.
    rewrite bool_decide_eq_true_2.
    + rewrite IH by (by rewrite <- app_assoc).
      by rewrite <- app_assoc.
    + etrans; [|exact Hpre]. rewrite (cons_middle c above rest), app_assoc.
      by apply prefix_app_r.
Qed.

Lemma not_ambient_below `{Platform} c : ambient (script_dir ++ [c]) = false.
Proof.
  unfold ambient. apply bool_decide_eq_false_2. intros Hpre.
  apply prefix_length in Hpre. rewrite length_app in Hpre. simpl in Hpre. lia.
Qed.

Lemma parent_error_snapshot `{Platform} (f : gmap path node) :
  parent_error f USERS_JSON_FILE
  = match f !! DATA_FOLDER with
    | Some Dir => None
    | Some _ => Some NotADirectoryError
    | None => Some FileNotFoundError
    end.
Proof.
  unfold parent_error. rewrite parent_users_json_file.
  unfold DATA_FOLDER at 1.
  rewrite (resolve_ambient f [] script_dir) by done.
  cbn [resolve app]. unfold node_at. by rewrite not_ambient_below.
Qed.

(** No snapshot, a response that passes, and no folder to write in. *)
Lemma fetch_unwritable `{Platform} status body w e :
  fs w !! USERS_JSON_FILE = None ->
  raise_for_status status = None ->
  parent_error (fs w) USERS_JSON_FILE = Some e ->
  fetch_user_data_to_json (Reply status body) w
  = (Raise e, World (fs w) (requests w ++ [(API_URL, 60)]) (logs w)).
Proof.
  intros Hp Hs Hd. unfold fetch_user_data_to_json, bind, path_exists.
  rewrite bool_decide_eq_false_2 by (rewrite Hp; by intros [? ?]).
  rewrite try_fetch_spec. unfold caught. rewrite Hs.
  unfold open_w, create. simpl. by rewrite Hp, Hd.
Qed.

(** No snapshot, a response that passes, a folder to write in, and a body
    that does not decode. *)
Lemma fetch_undecodable `{Platform} status body w e :
  fs w !! USERS_JSON_FILE = None ->
  raise_for_status status = None ->
  parent_error (fs w) USERS_JSON_FILE = None ->
  json_loads body = Raise e ->
  fetch_user_data_to_json (Reply status body) w
  = (Raise e,
     World (<[USERS_JSON_FILE := TextFile []]> (fs w))
       (requests w ++ [(API_URL, 60)]) (logs w)).
Proof.
  intros Hp Hs Hd Hv. unfold fetch_user_data_to_json, bind, path_exists.
  rewrite bool_decide_eq_false_2 by (rewrite Hp; by intros [? ?]).
  rewrite try_fetch_spec. unfold caught. rewrite Hs.
  unfold open_w, create, lift, json_load, set_fs. simpl.
  by rewrite Hp, Hd, Hv.
Qed.

Lemma fetch_cases `{Platform} reply w :
  fetch_outcome reply w (fst (fetch_user_data_to_json reply w))
    (snd (fetch_user_data_to_json reply w)).
Proof.
  destruct (fs w !! USERS_JSON_FILE) as [n|] eqn:Hp.
  { rewrite fetch_present by eauto. apply FetchSkipped. eauto. }
  destruct (caught reply) as [e|] eqn:Hc.
  { rewrite (fetch_caught _ _ e) by done. by apply FetchFailed. }
  destruct reply as [cause|status body]; [done|]. simpl in Hc.
  destruct (parent_error (fs w) USERS_JSON_FILE) as [e|] eqn:Hd.
  { rewrite (fetch_unwritable _ _ _ e) by done. by eapply FetchUnwritable. }
  destruct (json_loads body) as [v|e] eqn:Hv.
  - rewrite (fetch_stored _ _ v) by done. by eapply FetchStored.
  - rewrite (fetch_undecodable _ _ _ e) by done. by eapply FetchUndecodable.
Qed.

(** X1. A response that passes [raise_for_status] but whose body the
    decoder refuses makes the call raise what the decoder raised, after the
    snapshot file has been opened for writing: an empty snapshot is left
    behind. Every later call then finds the file and skips the fetch, and an
    export on that snapshot raises what the decoder raises on the empty
    text. *)
Theorem undecodable_body_leaves_empty_snapshot `{Platform} status body e w :
  fs w !! USERS_JSON_FILE = None ->
  raise_for_status status = None ->
  parent_error (fs w) USERS_JSON_FILE = None ->
  json_loads body = Raise e ->
  exists w1,
    fetch_user_data_to_json (Reply status body) w = (Raise e, w1) /\
    fs w1 !! USERS_JSON_FILE = Some (TextFile []) /\
    logs w1 = logs w /\
    (forall reply2,
       fetch_user_data_to_json reply2 w1
       = (Ok tt, World (fs w1) (requests w1) (logs w1 ++ [(1, MsgSkipped)]))) /\
    (forall e',
       json_loads [] = Raise e' ->
       forall now folder,
         write_user_data_to_excel now folder w1 = (Raise e', w1)).
Proof.
  intros Hp Hs Hd Hv.
  set (w1 := World (<[USERS_JSON_FILE := TextFile []]> (fs w))
               (requests w ++ [(API_URL, 60)]) (logs w)).
  assert (fs w1 !! USERS_JSON_FILE = Some (TextFile [])) as Hw1
    by (simpl; by rewrite lookup_insert_eq).
  exists w1. split; [by apply fetch_undecodable|].
  split_and!; try done.
  - intros reply2. apply fetch_present. by rewrite Hw1.
  - intros e' He now folder. by apply (write_undecodable_snapshot _ _ _ []).
Qed.

Lemma undecodable_body_leaves_empty_snapshot_witness :
  exists w1,
    fetch_user_data_to_json (Reply 200 (str "<html>")) Sample.cold
    = (Raise JSONDecodeError, w1) /\
    fs w1 !! USERS_JSON_FILE = Some (TextFile []) /\
    logs w1 = logs Sample.cold /\
    (forall reply2,
       fetch_user_data_to_json reply2 w1
       = (Ok tt, World (fs w1) (requests w1) (logs w1 ++ [(1, MsgSkipped)]))) /\
    (forall e',
       json_loads [] = Raise e' ->
       forall now folder,
         write_user_data_to_excel now folder w1 = (Raise e', w1)).
Proof.
  apply (@undecodable_body_leaves_empty_snapshot Reference.platform 200
           (str "<html>") JSONDecodeError Sample.cold); by_evaluation.
Defined.

(** X2. The data folder is never created: when it does not exist, a
    response that passes makes the call raise [FileNotFoundError] after the
    request was issued, and nothing is written or logged. *)
Theorem missing_data_folder_raises `{Platform} status body w :
  fs w !! USERS_JSON_FILE = None ->
  fs w !! DATA_FOLDER = None ->
  raise_for_status status = None ->
  fetch_user_data_to_json (Reply status body) w
  = (Raise FileNotFoundError,
     World (fs w) (requests w ++ [(API_URL, 60)]) (logs w)).
Proof.
  intros Hp Hd Hs. apply fetch_unwritable; [done..|].
  by rewrite parent_error_snapshot, Hd.
Qed.

Lemma missing_data_folder_raises_witness :
  fetch_user_data_to_json (Reply 200 (str "[]")) Sample.no_data_folder
  = (Raise FileNotFoundError,
     World (fs Sample.no_data_folder)
       (requests Sample.no_data_folder ++ [(API_URL, 60)])
       (logs Sample.no_data_folder)).
Proof.
  apply (@missing_data_folder_raises Reference.platform 200 (str "[]")
           Sample.no_data_folder); by_evaluation.
Defined.

(** X3. Whatever the reply, a call of the cache loader touches no path
    but the snapshot's, issues at most one request, which goes to the fixed
    URL with the timeout of 60, and issues none and changes no file when the
    snapshot path exists. *)
Theorem fetch_touches_only_the_snapshot `{Platform} reply w r w' :
  fetch_user_data_to_json reply w = (r, w') ->
  (forall p, p <> USERS_JSON_FILE -> fs w' !! p = fs w !! p) /\
  (requests w' = requests w \/ requests w' = requests w ++ [(API_URL, 60)]) /\
  (is_Some (fs w !! USERS_JSON_FILE) -> fs w' = fs w /\ requests w' = requests w).
Proof.
  intros E. pose proof (fetch_cases reply w) as Hc. rewrite E in Hc. simpl in Hc.
  destruct Hc as [Hp|e Hp|status body e Hp|status body Hp|status body v Hp]; simpl.
  - split_and!; auto.
  - split_and!; auto. intros [n Hn]. congruence.
  - split_and!; auto. intros [n Hn]. congruence.
  - split_and!; auto.
    + intros p Hne. by rewrite lookup_insert_ne.
    + intros [n Hn]. congruence.
  - split_and!; auto.
    + intros p Hne. by rewrite lookup_insert_ne.
    + intros [n Hn]. congruence.
Qed.

Lemma fetch_touches_only_the_snapshot_witness :
  (forall p, p <> USERS_JSON_FILE ->
     fs (Sample.stored (str "[1, 2]")) !! p = fs Sample.cold !! p) /\
  (requests (Sample.stored (str "[1, 2]")) = requests Sample.cold \/
   requests (Sample.stored (str "[1, 2]")) = requests Sample.cold ++ [(API_URL, 60)]) /\
  (is_Some (fs Sample.cold !! USERS_JSON_FILE) ->
   fs (Sample.stored (str "[1, 2]")) = fs Sample.cold /\
   requests (Sample.stored (str "[1, 2]")) = requests Sample.cold).
Proof.
  apply (@fetch_touches_only_the_snapshot Reference.platform
           (Reply 200 (str "[1,2]")) Sample.cold (Ok tt)).
  by_evaluation.
Defined.

(** X4. A call of the cache loader that returns has logged exactly one
    record: the skip line at level 1 when the snapshot path exists, the
    failure line at level 2 when the [try] block caught an exception, the
    creation line at level 1 when the snapshot was stored. A call that
    raises has logged nothing. *)
Theorem fetch_logs_one_record `{Platform} reply w r w' :
  fetch_user_data_to_json reply w = (r, w') ->
  match r with
  | Ok _ =>
      (is_Some (fs w !! USERS_JSON_FILE) /\ logs w' = logs w ++ [(1, MsgSkipped)]) \/
      (exists e, fs w !! USERS_JSON_FILE = None /\ caught reply = Some e /\
                 logs w' = logs w ++ [(2, MsgFetchFailed e)]) \/
      (fs w !! USERS_JSON_FILE = None /\ caught reply = None /\
       is_Some (fs w' !! USERS_JSON_FILE) /\
       logs w' = logs w ++ [(1, MsgCreated USERS_JSON_FILE)])
  | Raise _ => logs w' = logs w
  end.
Proof.
  intros E. pose proof (fetch_cases reply w) as Hc. rewrite E in Hc. simpl in Hc.
  destruct Hc as [Hp|e Hp Hc|status body e Hp|status body Hp|status body v Hp -> Hs];
    simpl; auto.
  - right; left. eauto.
  - right; right. simpl. rewrite lookup_insert_eq. split_and!; eauto.
Qed.

Lemma fetch_logs_one_record_witness :
  (is_Some (fs Sample.cold !! USERS_JSON_FILE) /\
   logs (World (fs Sample.cold) [(API_URL, 60)] [(2, MsgFetchFailed (HTTPError 404))])
   = logs Sample.cold ++ [(1, MsgSkipped)]) \/
  (exists e, fs Sample.cold !! USERS_JSON_FILE = None /\
             caught (Reply 404 []) = Some e /\
             logs (World (fs Sample.cold) [(API_URL, 60)]
                     [(2, MsgFetchFailed (HTTPError 404))])
             = logs Sample.cold ++ [(2, MsgFetchFailed e)]) \/
  (fs Sample.cold !! USERS_JSON_FILE = None /\ caught (Reply 404 []) = None /\
   is_Some (fs (World (fs Sample.cold) [(API_URL, 60)]
                  [(2, MsgFetchFailed (HTTPError 404))]) !! USERS_JSON_FILE) /\
   logs (World (fs Sample.cold) [(API_URL, 60)] [(2, MsgFetchFailed (HTTPError 404))])
   = logs Sample.cold ++ [(1, MsgCreated USERS_JSON_FILE)]).
Proof.
  apply (@fetch_logs_one_record Reference.platform (Reply 404 []) Sample.cold
           (Ok tt)
           (World (fs Sample.cold) [(API_URL, 60)]
              [(2, MsgFetchFailed (HTTPError 404))])).
  by_evaluation.
Defined.

(** X5. A failed fetch is not remembered: when a call catches an exception
    and the next call is answered with a response that passes and decodes,
    the second call issues a request of its own and stores the snapshot. *)
Theorem fetch_retries_after_failure `{Platform} reply1 e status body v w :
  fs w !! USERS_JSON_FILE = None ->
  caught reply1 = Some e ->
  raise_for_status status = None ->
  parent_error (fs w) USERS_JSON_FILE = None ->
  json_loads body = Ok v ->
  exists w1 w2,
    fetch_user_data_to_json reply1 w = (Ok tt, w1) /\
    fetch_user_data_to_json (Reply status body) w1 = (Ok tt, w2) /\
    requests w2 = requests w ++ [(API_URL, 60); (API_URL, 60)] /\
    fs w2 !! USERS_JSON_FILE = Some (TextFile (json_dumps v)) /\
    logs w2 = logs w ++ [(2, MsgFetchFailed e); (1, MsgCreated USERS_JSON_FILE)].
Proof.
  intros Hp Hc Hs Hd Hv.
  eexists _, _. split; [by apply fetch_caught|].
  split; [by apply fetch_stored|]. simpl.
  rewrite lookup_insert_eq, <- !app_assoc. done.
Qed.

Lemma fetch_retries_after_failure_witness :
  exists w1 w2,
    fetch_user_data_to_json (NoReply (str "timed out")) Sample.cold = (Ok tt, w1) /\
    fetch_user_data_to_json (Reply 200 (str "[]")) w1 = (Ok tt, w2) /\
    requests w2 = requests Sample.cold ++ [(API_URL, 60); (API_URL, 60)] /\
    fs w2 !! USERS_JSON_FILE = Some (TextFile (json_dumps (JArr []))) /\
    logs w2
    = logs Sample.cold
      ++ [(2, MsgFetchFailed (TransportError (str "timed out")));
          (1, MsgCreated USERS_JSON_FILE)].
Proof.
  apply (@fetch_retries_after_failure Reference.platform
           (NoReply (str "timed out")) (TransportError (str "timed out"))
           200 (str "[]") (JArr []) Sample.cold); by_evaluation.
Defined.

(** ** The export, step by step *)

Section ExportFacts.
Context `{Platform}.

Lemma append_rows_accepts ws users rows :
  rmap export_row users = Ok rows ->
  Forall (fun r => forallb cell_ok r = true) rows ->
  append_rows ws users = Ok (ws ++ List.map stored_row rows).
Proof.
  revert ws rows; induction users as [|u users IH]; intros ws rows E Hok;
    simpl in *.
  - inv_result. by rewrite app_nil_r.
  - inv_result. apply Forall_cons in Hok as [Ha1 Hok].
    rewrite Ha. simpl. unfold ws_append.
    rewrite (rmap_bind_value_Ok _ Ha1). simpl.
    rewrite (IH _ _ Ha0 Hok). by rewrite <- app_assoc.
Qed.

Lemma append_rows_rejects ws users rows :
  rmap export_row users = Ok rows ->
  Exists (fun r => forallb cell_ok r = false) rows ->
  exists e, append_rows ws users = Raise e.
Proof.
  revert ws rows; induction users as [|u users IH]; intros ws rows E Hbad;
    simpl in *.
  - inv_result. by apply Exists_nil in Hbad.
  - inv_result. rewrite Ha. simpl. unfold ws_append.
    destruct (forallb cell_ok a) eqn:Hc.
    + rewrite (rmap_bind_value_Ok _ Hc). simpl.
      apply Exists_cons in Hbad as [Hbad|Hbad]; [congruence|].
      destruct (IH (ws ++ [stored_row a]) a0 Ha0 Hbad) as [e ->]. eauto.
    + destruct (rmap_bind_value_Raise _ Hc) as [e ->]. simpl. eauto.
Qed.

(** Path resolution, one component further. *)
Lemma resolve_snoc (f : gmap path node) above l c :
  resolve f above (l ++ [c])
  = match resolve f above l with
    | Some e => Some e
    | None =>
        match node_at f (above ++ l ++ [c]) with
        | Some Dir => None
        | Some _ => Some NotADirectoryError
        | None => Some FileNotFoundError
        end
    end.
Proof.
  revert above; induction l as [|x l IH]; intros above.
  - done.
  - cbn [resolve app].
    destruct (node_at f (above ++ [x])) as [[]|]; try done.
    rewrite IH. by rewrite <- app_assoc.
Qed.

(** A folder that is absent, below folders that are there. *)
Lemma parent_error_missing_folder (f : gmap path node) folder name :
  folder <> [] ->
  ambient folder = false ->
  f !! folder = None ->
  parent_error f (folder ++ [name])
  = match parent_error f folder with
    | Some e => Some e
    | None => Some FileNotFoundError
    end.
Proof.
  intros Hne Ha Hf. unfold parent_error, parent at 1.
  rewrite removelast_last.
  rewrite (app_removelast_last [] Hne) at 1.
  rewrite resolve_snoc. unfold parent.
  destruct (resolve f [] (removelast folder)); [done|].
  cbn [app]. rewrite <- (app_removelast_last [] Hne).
  unfold node_at. by rewrite Ha, Hf.
Qed.

Lemma create_writable p n w :
  writable (fs w) p -> create p n w = (Ok tt, set_fs <[p := n]> w).
Proof.
  unfold writable, create. destruct (fs w !! p) as [[]|]; try done.
  by intros ->.
Qed.

Lemma create_Ok_writable p n w w' :
  create p n w = (Ok tt, w') -> writable (fs w) p.
Proof.
  unfold writable, create. destruct (fs w !! p) as [[]|]; try done.
  by destruct (parent_error (fs w) p).
Qed.

Lemma export_name_not_snapshot folder now :
  folder ++ [export_name now] <> USERS_JSON_FILE.
Proof.
  unfold USERS_JSON_FILE. intros E. apply app_inj_tail in E as [_ E].
  unfold export_name, str in E. simpl in E. discriminate.
Qed.

End ExportFacts.

(** What makes an export succeed, and what it leaves. *)
Lemma write_user_data_to_excel_Ok_iff `{Platform} now folder w w' :
  write_user_data_to_excel now folder w = (Ok tt, w') <->
  exists text users sorted_users rows,
    fs w !! USERS_JSON_FILE = Some (TextFile text) /\
    json_loads text = Ok users /\
    sorted users = Ok sorted_users /\
    rmap export_row sorted_users = Ok rows /\
    Forall (fun r => forallb cell_ok r = true) (header :: rows) /\
    writable (fs w) (folder ++ [export_name now]) /\
    w' = World (<[folder ++ [export_name now]
                  := XlsxFile (header :: List.map stored_row rows)]> (fs w))
           (requests w)
           (logs w ++ [(1, MsgSaved (folder ++ [export_name now]))]).
Proof.
  split.
  - intros E.
    destruct (write_user_data_to_excel_Ok _ _ _ _ E)
      as (text & users & sorted_users & rows & Hp & Hl & Hs & Hr & Hw).
    exists text, users, sorted_users, rows.
    rewrite (write_from_snapshot _ _ _ _ _ Hp Hl), Hs in E.
    destruct (append_rows [header] sorted_users) as [ws|] eqn:Ha; [|done].
    apply append_rows_Ok in Ha as (rows' & Hr' & -> & Hok).
    assert (rows' = rows) as -> by congruence.
    destruct (create _ _ w) as [[[]|] w1] eqn:Hc; [|done].
    apply create_Ok_writable in Hc.
    split_and!; try done. constructor; [|done].
    apply (rmap_bind_value_cells _ _ header_cells).
  - intros (text & users & sorted_users & rows & Hp & Hl & Hs & Hr & Hok & Hw & ->).
    apply Forall_cons in Hok as [Hh Hok].
    rewrite (write_from_snapshot _ _ _ _ _ Hp Hl), Hs.
    rewrite (append_rows_accepts _ _ _ Hr Hok).
    by rewrite (create_writable _ _ _ Hw).
Qed.





(** X8. The output folder is never created: when it does not exist, an
    export whose table was built raises at the save and leaves the world as
    it was. It raises [FileNotFoundError] when the folders above the output
    folder are there, and otherwise what the way to the output folder
    raises: [FileNotFoundError] for the first folder on it that does not
    exist, [NotADirectoryError] when a file is in its place. *)
Theorem missing_output_folder_raises `{Platform} now folder w text users
    sorted_users rows :
  fs w !! USERS_JSON_FILE = Some (TextFile text) ->
  json_loads text = Ok users ->
  sorted users = Ok sorted_users ->
  rmap export_row sorted_users = Ok rows ->
  Forall (fun r => forallb cell_ok r = true) (header :: rows) ->
  folder <> [] ->
  ambient folder = false ->
  fs w !! folder = None ->
  fs w !! (folder ++ [export_name now]) = None ->
  (parent_error (fs w) folder = None ->
   write_user_data_to_excel now folder w = (Raise FileNotFoundError, w)) /\
  (forall e,
     parent_error (fs w) folder = Some e ->
     write_user_data_to_excel now folder w = (Raise e, w) /\
     (e = FileNotFoundError \/ e = NotADirectoryError)).
Proof.
  intros Hp Hl Hs Hr Hok Hne Ha Hf Hout.
  apply Forall_cons in Hok as [Hh Hok].
  rewrite (write_from_snapshot _ _ _ _ _ Hp Hl), Hs.
  rewrite (append_rows_accepts _ _ _ Hr Hok).
  unfold create. rewrite Hout.
  rewrite (parent_error_missing_folder _ _ _ Hne Ha Hf).
  split.
  - by intros ->.
  - intros e He. rewrite He. split; [done|]. by eapply parent_error_cases.
Qed.

Lemma missing_output_folder_raises_witness :
  write_user_data_to_excel Sample.noon Sample.files
    (Sample.no_output_folder (Reference.dumps (JArr [Sample.jane])))
  = (Raise FileNotFoundError,
     Sample.no_output_folder (Reference.dumps (JArr [Sample.jane]))) /\
  write_user_data_to_excel Sample.noon
    [str "srv"; str "app"; str "data"; str "users.json"; str "out"]
    (Sample.no_output_folder (Reference.dumps (JArr [Sample.jane])))
  = (Raise NotADirectoryError,
     Sample.no_output_folder (Reference.dumps (JArr [Sample.jane]))).
Proof.
  split.
  - destruct (@missing_output_folder_raises Reference.platform Sample.noon
                Sample.files
                (Sample.no_output_folder (Reference.dumps (JArr [Sample.jane])))
                (Reference.dumps (JArr [Sample.jane])) (JArr [Sample.jane])
                [Sample.jane] [Sample.jane_row]) as [Hnone _];
      [by_evaluation|by_evaluation|by_evaluation|by_evaluation|
       repeat constructor|discriminate|by_evaluation|by_evaluation|
       by_evaluation|].
    apply Hnone. by_evaluation.
  - destruct (@missing_output_folder_raises Reference.platform Sample.noon
                [str "srv"; str "app"; str "data"; str "users.json"; str "out"]
                (Sample.no_output_folder (Reference.dumps (JArr [Sample.jane])))
                (Reference.dumps (JArr [Sample.jane])) (JArr [Sample.jane])
                [Sample.jane] [Sample.jane_row]) as [_ Hsome];
      [by_evaluation|by_evaluation|by_evaluation|by_evaluation|
       repeat constructor|discriminate|by_evaluation|by_evaluation|
       by_evaluation|].
    apply (Hsome NotADirectoryError). by_evaluation.
Defined.

(** ** Export names and repeated exports *)

Lemma clock_compare_Eq a b :
  clock_compare a b = Eq ->
  year a = year b /\ month a = month b /\ day a = day b /\
  hour a = hour b /\ minute a = minute b /\ second a = second b.
Proof.
  unfold clock_compare.
  destruct (Z.compare_spec (year a) (year b)); try done.
  destruct (Z.compare_spec (month a) (month b)); try done.
  destruct (Z.compare_spec (day a) (day b)); try done.
  destruct (Z.compare_spec (hour a) (hour b)); try done.
  destruct (Z.compare_spec (minute a) (minute b)); try done.
  destruct (Z.compare_spec (second a) (second b)); try done.
Qed.

(** X9. Two export moments give the same file name exactly when they
    agree on year, month, day, hour, minute and second: exports in different
    clock seconds never share a name, exports within one second always
    do. *)
Theorem export_names_collide_iff_same_second d1 d2 :
  valid_datetime d1 -> valid_datetime d2 ->
  export_name d1 = export_name d2 <->
  year d1 = year d2 /\ month d1 = month d2 /\ day d1 = day d2 /\
  hour d1 = hour d2 /\ minute d1 = minute d2 /\ second d1 = second d2.
Proof.
  intros H1 H2. split.
  - intros E. unfold export_name in E.
    apply app_inv_head, app_inv_tail in E. by apply strftime_fields.
  - intros (Ey & Em & Ed & EH & EM & ES).
    unfold export_name, strftime_YmdHMS. by rewrite Ey, Em, Ed, EH, EM, ES.
Qed.

Lemma export_names_collide_iff_same_second_witness :
  export_name Sample.new_year_eve = export_name (Datetime 2023 12 31 23 59 59 0) <->
  year Sample.new_year_eve = 2023 /\ month Sample.new_year_eve = 12 /\
  day Sample.new_year_eve = 31 /\ hour Sample.new_year_eve = 23 /\
  minute Sample.new_year_eve = 59 /\ second Sample.new_year_eve = 59.
Proof.
  apply (export_names_collide_iff_same_second Sample.new_year_eve
           (Datetime 2023 12 31 23 59 59 0));
    unfold valid_datetime; cbn; lia.
Defined.

(** X10. An export repeated at the same moment succeeds again and
    replaces the file of the first one with an equal one: the file system
    after the second export is the one after the first. *)
Theorem export_same_second_overwrites `{Platform} now folder w w1 :
  write_user_data_to_excel now folder w = (Ok tt, w1) ->
  exists w2,
    write_user_data_to_excel now folder w1 = (Ok tt, w2) /\
    fs w2 = fs w1 /\
    logs w2 = logs w1 ++ [(1, MsgSaved (folder ++ [export_name now]))].
Proof.
  intros E.
  apply write_user_data_to_excel_Ok_iff in E
    as (text & users & sorted_users & rows & Hp & Hl & Hs & Hr & Hok & Hw & ->).
  eexists. split.
  - apply write_user_data_to_excel_Ok_iff.
    exists text, users, sorted_users, rows. split_and!; try done.
    + simpl. rewrite lookup_insert_ne; [done|]. apply export_name_not_snapshot.
    + unfold writable. simpl. by rewrite lookup_insert_eq.
  - simpl. split; [|done]. apply insert_insert_eq.
Qed.

Lemma export_same_second_overwrites_witness :
  exists w2,
    write_user_data_to_excel Sample.noon Sample.files
      (Sample.exported (Sample.snapshot_of [Sample.jane]) Sample.noon
         [Sample.jane_row])
    = (Ok tt, w2) /\
    fs w2 = fs (Sample.exported (Sample.snapshot_of [Sample.jane]) Sample.noon
                  [Sample.jane_row]) /\
    logs w2
    = logs (Sample.exported (Sample.snapshot_of [Sample.jane]) Sample.noon
              [Sample.jane_row])
      ++ [(1, MsgSaved (Sample.files ++ [export_name Sample.noon]))].
Proof.
  apply (@export_same_second_overwrites Reference.platform Sample.noon
           Sample.files (Sample.snapshot_of [Sample.jane])).
  by_evaluation.
Defined.

(** X11. The table depends on the snapshot alone: two successive exports
    under different names leave two files, and both hold the same sheet. *)
Theorem exports_keep_each_other `{Platform} d1 d2 folder w w1 w2 :
  write_user_data_to_excel d1 folder w = (Ok tt, w1) ->
  write_user_data_to_excel d2 folder w1 = (Ok tt, w2) ->
  export_name d1 <> export_name d2 ->
  exists rows,
    fs w2 !! (folder ++ [export_name d1]) = Some (XlsxFile rows) /\
    fs w2 !! (folder ++ [export_name d2]) = Some (XlsxFile rows).
Proof.
  intros E1 E2 Hne.
  apply write_user_data_to_excel_Ok in E1
    as (text & users & sorted_users & rows & Hp & Hl & Hs & Hr & ->).
  apply write_user_data_to_excel_Ok in E2
    as (text' & users' & sorted_users' & rows' & Hp' & Hl' & Hs' & Hr' & ->).
  simpl in Hp'.
  rewrite lookup_insert_ne in Hp' by apply export_name_not_snapshot.
  assert (text' = text) as -> by congruence.
  assert (users' = users) as -> by congruence.
  assert (sorted_users' = sorted_users) as -> by congruence.
  assert (rows' = rows) as -> by congruence.
  exists (header :: List.map stored_row rows). simpl. split.
  - rewrite lookup_insert_ne, lookup_insert_eq; [done|].
    intros E. apply app_inj_tail in E as [_ E]. congruence.
  - by rewrite lookup_insert_eq.
Qed.

Lemma exports_keep_each_other_witness :
  exists rows,
    fs (Sample.exported
          (Sample.exported (Sample.snapshot_of [Sample.jane]) Sample.noon
             [Sample.jane_row])
          Sample.one_second_later [Sample.jane_row])
      !! (Sample.files ++ [export_name Sample.noon]) = Some (XlsxFile rows) /\
    fs (Sample.exported
          (Sample.exported (Sample.snapshot_of [Sample.jane]) Sample.noon
             [Sample.jane_row])
          Sample.one_second_later [Sample.jane_row])
      !! (Sample.files ++ [export_name Sample.one_second_later])
    = Some (XlsxFile rows).
Proof.
  apply (@exports_keep_each_other Reference.platform Sample.noon
           Sample.one_second_later Sample.files
           (Sample.snapshot_of [Sample.jane])
           (Sample.exported (Sample.snapshot_of [Sample.jane]) Sample.noon
              [Sample.jane_row])).
  - by_evaluation.
  - by_evaluation.
  - replace (export_name Sample.noon)
      with (str "employees_20240309120000.xlsx") by by_evaluation.
    replace (export_name Sample.one_second_later)
      with (str "employees_20240309120001.xlsx") by by_evaluation.
    intros E. apply str_inj in E. discriminate.
Defined.

(** ** Snapshots of other shapes *)

Lemma sorted_of_non_sequence users :
  (forall l, users <> JArr l) -> users <> JObj [] -> users <> JStr [] ->
  sorted users = Raise TypeError.
Proof.
  intros Harr Hobj Hstr. unfold sorted.
  destruct users as [| | | |s|l|m]; try done.
  - destruct s as [|c s]; [done|]. done.
  - by destruct (Harr l).
  - destruct m as [|[k v] m]; [done|]. done.
Qed.

(** X12. A snapshot that decodes to an empty list (or to an empty object
    or an empty string, which iterate as nothing) is exported as a
    spreadsheet that holds the header row alone. *)
Theorem empty_snapshot_exports_header `{Platform} now folder w text users :
  fs w !! USERS_JSON_FILE = Some (TextFile text) ->
  json_loads text = Ok users ->
  users = JArr [] \/ users = JObj [] \/ users = JStr [] ->
  forallb cell_ok header = true ->
  writable (fs w) (folder ++ [export_name now]) ->
  write_user_data_to_excel now folder w
  = (Ok tt,
     World (<[folder ++ [export_name now] := XlsxFile [header]]> (fs w))
       (requests w) (logs w ++ [(1, MsgSaved (folder ++ [export_name now]))])).
Proof.
  intros Hp Hl Hu Hh Hw. apply write_user_data_to_excel_Ok_iff.
  exists text, users, [], []. split_and!; try done.
  - by destruct Hu as [->|[->| ->]].
  - by repeat constructor.
Qed.

Lemma empty_snapshot_exports_header_witness :
  write_user_data_to_excel Sample.noon Sample.files (Sample.cached (str "[]"))
  = (Ok tt,
     World (<[Sample.files ++ [export_name Sample.noon] := XlsxFile [header]]>
              (fs (Sample.cached (str "[]"))))
       (requests (Sample.cached (str "[]")))
       (logs (Sample.cached (str "[]"))
        ++ [(1, MsgSaved (Sample.files ++ [export_name Sample.noon]))])).
Proof.
  apply (@empty_snapshot_exports_header Reference.platform Sample.noon Sample.files
           (Sample.cached (str "[]")) (str "[]") (JArr [])); try by_evaluation.
  - by left.
  - unfold writable.
    replace (fs (Sample.cached (str "[]"))
               !! (Sample.files ++ [export_name Sample.noon]))
      with (@None node) by by_evaluation.
    by_evaluation.
Defined.

(** X13. A snapshot that decodes to something other than a list (a
    number, a boolean, null, a non-empty object or a non-empty string)
    makes the export raise [TypeError], and nothing is written. *)
Theorem non_sequence_snapshot_raises `{Platform} now folder w text users :
  fs w !! USERS_JSON_FILE = Some (TextFile text) ->
  json_loads text = Ok users ->
  (forall l, users <> JArr l) -> users <> JObj [] -> users <> JStr [] ->
  forallb cell_ok header = true ->
  write_user_data_to_excel now folder w = (Raise TypeError, w).
Proof.
  intros Hp Hl Harr Hobj Hstr Hh.
  rewrite (write_from_snapshot _ _ _ _ _ Hp Hl).
  by rewrite (sorted_of_non_sequence users Harr Hobj Hstr).
Qed.

Lemma non_sequence_snapshot_raises_witness :
  write_user_data_to_excel Sample.noon Sample.files
    (Sample.cached (Reference.dumps Sample.jane))
  = (Raise TypeError, Sample.cached (Reference.dumps Sample.jane)).
Proof.
  apply (@non_sequence_snapshot_raises Reference.platform Sample.noon Sample.files
           (Sample.cached (Reference.dumps Sample.jane))
           (Reference.dumps Sample.jane) Sample.jane);
    try by_evaluation; discriminate.
Defined.

(** X14. When every record has its row but the worksheet refuses a cell
    of one of them, the export raises while it appends the rows, and
    nothing is written. *)
Theorem rejected_cell_raises `{Platform} now folder w text users sorted_users rows :
  fs w !! USERS_JSON_FILE = Some (TextFile text) ->
  json_loads text = Ok users ->
  forallb cell_ok header = true ->
  sorted users = Ok sorted_users ->
  rmap export_row sorted_users = Ok rows ->
  Exists (fun r => forallb cell_ok r = false) rows ->
  exists e, write_user_data_to_excel now folder w = (Raise e, w).
Proof.
  intros Hp Hl Hh Hs Hr Hbad.
  rewrite (write_from_snapshot _ _ _ _ _ Hp Hl), Hs.
  destruct (append_rows_rejects [header] _ _ Hr Hbad) as [e ->]. eauto.
Qed.

Lemma rejected_cell_raises_witness :
  exists e,
    write_user_data_to_excel Sample.noon Sample.files
      (Sample.snapshot_of [Sample.listed])
    = (Raise e, Sample.snapshot_of [Sample.listed]).
Proof.
  apply (@rejected_cell_raises Reference.platform Sample.noon Sample.files
           (Sample.snapshot_of [Sample.listed])
           (Reference.dumps (JArr [Sample.listed])) (JArr [Sample.listed])
           [Sample.listed]
           [[JStr (str "Fox"); JStr (str "Eve"); JStr (str "e@x.com");
             JStr (str "7 G St"); JStr (str "Gville"); JStr (str "7");
             JStr (str "7"); JArr [JStr (str "e.com")]]]);
    try by_evaluation.
  apply Exists_cons_hd. by_evaluation.
Defined.

(** ** The order of the rows is forced *)

Lemma keyed_pairs (pairs : list ((pystr * pystr) * json)) :
  Forall (fun p => sort_key (snd p) = Ok (fst p)) pairs ->
  pairs = List.map (fun u => (key_of u, u)) (List.map snd pairs).
Proof.
  induction 1 as [|[k u] pairs Hp _ IH]; simpl; [done|].
  simpl in Hp. unfold key_of at 1. rewrite Hp. by f_equal.
Qed.

Lemma filter_key_of k (l : list json) :
  Forall (fun u => exists ku, sort_key u = Ok ku) l ->
  filter (fun p => fst p = k) (List.map (fun u => (key_of u, u)) l)
  = List.map (fun u => (key_of u, u)) (filter (fun u => sort_key u = Ok k) l).
Proof.
  induction 1 as [|u l [ku Hu] _ IH]; simpl; [done|].
  rewrite (filter_cons _ (key_of u, u)), (filter_cons _ u), IH.
  assert (key_of u = ku) as Hk by (unfold key_of; by rewrite Hu).
  destruct (decide (fst (key_of u, u) = k)) as [E|NE];
    destruct (decide (sort_key u = Ok k)) as [E'|NE'];
    simpl in *; try done; exfalso.
  - apply NE'. by rewrite Hu, <- Hk, E.
  - apply NE. rewrite Hk. congruence.
Qed.

Lemma ascending_keyed (l : list json) :
  ascending l ->
  StronglySorted (keyed_le key_lt) (List.map (fun u => (key_of u, u)) l).
Proof.
  induction 1 as [|u l _ IH Hu]; simpl; constructor; [done|].
  apply Forall_forall. intros p Hp.
  apply list_elem_of_fmap in Hp as (v & -> & Hv).
  rewrite Forall_forall in Hu. destruct (Hu v Hv) as (ku & kv & Hku & Hkv & Hle).
  unfold keyed_le, key_of. simpl. by rewrite Hku, Hkv.
Qed.

(** X15. The order [sorted] returns is the only one: every arrangement of
    the records that is ascending by key and keeps equal keys in input
    order is the list [sorted] returns. *)
Theorem sorted_is_the_only_stable_order users items out candidate :
  iterate users = Ok items ->
  sorted users = Ok out ->
  items ≡ₚ candidate -> ascending candidate -> stable items candidate ->
  candidate = out.
Proof.
  unfold sorted. intros -> E Hperm Hasc Hst. simpl in E. inv_result.
  rename a into pairs.
  destruct (decorate_Ok _ _ Ha) as [Hsnd Hkeys].
  assert (Forall (fun u => exists ku, sort_key u = Ok ku) items) as Hitems.
  { rewrite <- Hsnd. clear -Hkeys.
    induction Hkeys as [|p pairs Hp _ IH]; simpl; constructor; eauto. }
  assert (Forall (fun u => exists ku, sort_key u = Ok ku) candidate) as Hcand
    by by rewrite <- Hperm.
  rewrite (keyed_pairs pairs Hkeys), Hsnd.
  assert (List.map (fun u => (key_of u, u)) candidate
          = sort_keyed key_lt (List.map (fun u => (key_of u, u)) items)) as Heq.
  { apply (stable_sorted_unique key_lt key_le_antisym).
    - by apply ascending_keyed.
    - apply sort_keyed_sorted; [apply key_lt_asym | apply key_le_trans].
    - intros k. rewrite sort_keyed_stable by apply key_lt_asym.
      rewrite !filter_key_of by done. f_equal. apply Hst. }
  rewrite <- Heq, List.map_map. simpl. by rewrite List.map_id.
Qed.

Lemma sorted_is_the_only_stable_order_witness :
  let items := [Sample.alice; Sample.bob; Sample.carl] in
  let candidate := [Sample.bob; Sample.carl; Sample.alice] in
  items ≡ₚ candidate /\ ascending candidate /\ stable items candidate /\
  candidate = [Sample.bob; Sample.carl; Sample.alice].
Proof.
  intros items candidate.
  pose proof (sorted_spec (JArr items) items candidate eq_refl
                ltac:(by_evaluation)) as (Hperm & Hasc & Hst).
  split_and!; [exact Hperm | exact Hasc | exact Hst |].
  apply (sorted_is_the_only_stable_order (JArr items) items
           [Sample.bob; Sample.carl; Sample.alice] candidate);
    [reflexivity | by_evaluation | exact Hperm | exact Hasc | exact Hst].
Defined.

(** ** Splitting names *)

Lemma flush_app cur toks more : flush cur toks ++ more = flush cur (toks ++ more).
Proof. by destruct cur. Qed.

Lemma split_from_space cur a c b :
  is_space c = true ->
  split_from cur (a ++ c :: b) = split_from cur a ++ split b.
Proof.
  intros Hc. revert cur; induction a as [|x a IH]; intros cur; simpl.
  - rewrite Hc. by rewrite flush_app.
  - destruct (is_space x); [|apply IH].
    rewrite IH. by rewrite flush_app.
Qed.

Lemma split_from_nil cur s :
  split_from cur s = [] <-> cur = [] /\ Forall (fun c => is_space c = true) s.
Proof.
  revert cur; induction s as [|c s IH]; intros cur; simpl.
  - destruct cur as [|x cur]; simpl.
    + split; [intros _; split; [done | constructor] | done].
    + split; [done | by intros [? _]].
  - destruct (is_space c) eqn:Hc.
    + destruct cur as [|x cur]; simpl.
      * rewrite IH. split; intros [_ Hs]; split; try done.
        -- by constructor.
        -- by apply Forall_cons in Hs as [_ Hs].
      * split; [done | by intros [? _]].
    + rewrite IH. split; [by intros [? _]|].
      intros [_ Hs]. apply Forall_cons in Hs as [Hs _]. congruence.
Qed.

(** X16. Splitting is the inverse of joining with single spaces: tokens
    (non-empty, free of white space) joined by one space each split back into
    the same tokens, and whatever [split] returns is a list of tokens. *)
Theorem split_round_trip :
  (forall toks, Forall token toks -> split (unwords toks) = toks) /\
  (forall s, Forall token (split s)).
Proof. split; [apply split_unwords | apply split_tokens]. Qed.

Lemma split_round_trip_witness :
  split (unwords [str "Mary"; str "Ann"; str "O'Neil"])
  = [str "Mary"; str "Ann"; str "O'Neil"] /\
  Forall token (split (str "  Mary   Ann O'Neil ")).
Proof.
  split.
  - apply (proj1 split_round_trip).
    repeat constructor; apply is_token_token; by_evaluation.
  - apply (proj2 split_round_trip).
Defined.

(** X17. Any white-space character separates: the tokens of a name cut at
    a white-space character are the tokens before it followed by the tokens
    after it. Hence white space at either end, and runs of white space,
    produce no token; and a name has no token exactly when it consists of
    white space only. *)
Theorem split_at_white_space :
  (forall a c b, is_space c = true -> split (a ++ c :: b) = split a ++ split b) /\
  (forall s, split s = [] <-> Forall (fun c => is_space c = true) s).
Proof.
  split.
  - intros a c b Hc. by apply split_from_space.
  - intros s. unfold split. rewrite split_from_nil.
    split; [by intros [_ Hs] | by split].
Qed.

Lemma split_at_white_space_witness :
  split (str "Jane" ++ 9%N :: str "Doe") = split (str "Jane") ++ split (str "Doe") /\
  (split [32%N; 9%N; 160%N] = [] <->
   Forall (fun c => is_space c = true) [32%N; 9%N; 160%N]).
Proof.
  split.
  - apply (proj1 split_at_white_space). by_evaluation.
  - apply (proj2 split_at_white_space).
Defined.

(** X18. What the key function raises on a malformed record: [TypeError]
    when the record is not an object, [KeyError] for [name] when the object
    has no such member, [AttributeError] when the name is not a string, and
    [IndexError] when the name holds no token (it is empty or white space
    only). *)
Theorem sort_key_errors u :
  ((forall m, u <> JObj m) -> sort_key u = Raise TypeError) /\
  (forall m, u = JObj m -> field u "name" = None ->
     sort_key u = Raise (KeyError (str "name"))) /\
  (forall v, field u "name" = Some v -> (forall s, v <> JStr s) ->
     sort_key u = Raise AttributeError) /\
  (forall s, field u "name" = Some (JStr s) ->
     Forall (fun c => is_space c = true) s ->
     sort_key u = Raise IndexError).
Proof.
  unfold sort_key, last_name. split_and!.
  - intros Hu. destruct u; try done. by destruct (Hu members).
  - intros m -> Hn. by rewrite (getitem_missing _ m "name" eq_refl Hn).
  - intros v Hn Hv. apply getitem_field in Hn. rewrite Hn. simpl.
    destruct v; try done. by destruct (Hv s).
  - intros s Hn Hs. apply getitem_field in Hn. rewrite Hn. simpl.
    unfold split.
    assert (split_from [] s = []) as -> by (by apply split_from_nil).
    done.
Qed.

Lemma sort_key_errors_witness :
  sort_key (JInt 7) = Raise TypeError /\
  sort_key (JObj [(str "email", JStr (str "a@x.com"))])
  = Raise (KeyError (str "name")) /\
  sort_key (JObj [(str "name", JInt 7)]) = Raise AttributeError /\
  sort_key (JObj [(str "name", JStr (str "  "))]) = Raise IndexError.
Proof.
  split_and!.
  - apply (proj1 (sort_key_errors (JInt 7))). discriminate.
  - apply (proj1 (proj2 (sort_key_errors
                           (JObj [(str "email", JStr (str "a@x.com"))])))
             [(str "email", JStr (str "a@x.com"))]); [reflexivity | by_evaluation].
  - apply (proj1 (proj2 (proj2 (sort_key_errors (JObj [(str "name", JInt 7)]))))
             (JInt 7)); [by_evaluation | discriminate].
  - apply (proj2 (proj2 (proj2 (sort_key_errors
                                  (JObj [(str "name", JStr (str "  "))]))))
             (str "  ")); [by_evaluation|].
    repeat constructor.
Defined.

(** ** Whole runs *)


(** X19. A run on a warm cache issues no network request: the loader logs
    the skip and the run is the export on the existing snapshot. *)
Theorem warm_run_issues_no_request `{Platform} reply now w :
  is_Some (fs w !! USERS_JSON_FILE) ->
  main reply now w
  = write_user_data_to_excel now [str "files"]
      (World (fs w) (requests w) (logs w ++ [(1, MsgSkipped)])) /\
  requests (snd (main reply now w)) = requests w.
Proof.
  intros Hp.
  assert (main reply now w
          = write_user_data_to_excel now [str "files"]
              (World (fs w) (requests w) (logs w ++ [(1, MsgSkipped)]))) as Hm.
  { unfold main, bind. by rewrite fetch_present. }
  split; [done|]. rewrite Hm.
  destruct (write_user_data_to_excel now [str "files"] _) as [[[]|e] w'] eqn:E.
  - by apply write_user_data_to_excel_Ok in E as (? & ? & ? & ? & _ & _ & _ & _ & ->).
  - by apply write_user_data_to_excel_Raise in E as ->.
Qed.

Lemma warm_run_issues_no_request_witness :
  main (NoReply (str "unreachable")) Sample.noon (Sample.snapshot_of [Sample.jane])
  = write_user_data_to_excel Sample.noon [str "files"]
      (World (fs (Sample.snapshot_of [Sample.jane]))
         (requests (Sample.snapshot_of [Sample.jane]))
         (logs (Sample.snapshot_of [Sample.jane]) ++ [(1, MsgSkipped)])) /\
  requests (snd (main (NoReply (str "unreachable")) Sample.noon
                   (Sample.snapshot_of [Sample.jane])))
  = requests (Sample.snapshot_of [Sample.jane]).
Proof.
  apply (@warm_run_issues_no_request Reference.platform
           (NoReply (str "unreachable")) Sample.noon
           (Sample.snapshot_of [Sample.jane])).
  exists (TextFile (Reference.dumps (JArr [Sample.jane]))). by_evaluation.
Defined.


